(** * mcp-gke-monitor: the resource-optimization engine

    A shallow embedding of package [optimization] (service.go, handler.go,
    types.go) and of the parts of package [gke] it reads, followed by the
    properties of the engine: quantity parsing, metric classification,
    health and optimization scores, waste aggregation and the update of
    the optimization criteria.

    Go values are modelled as follows.
    - [float64] is [spec_float] at precision 53 and maximal exponent 1024
      (IEEE-754 binary64, round to nearest even), with the operations of
      [SpecFloat].
    - [int32] is [Z] with the wrap-around written out ([wrap32]).
    - [int] holds slice lengths only; a slice cannot have more elements
      than bytes of address space, so [len(x)*2] is far from the bound of
      [int] and is taken in [Z].
    - [string] is a byte string ([string] of [ascii]).
    - [map[string]interface{}] is a [gmap string any]. *)

From Stdlib Require Import ZArith Lia List Bool Ascii String SpecFloat.
From Stdlib Require Import DecimalString.
From stdpp Require Import base strings gmap.

Local Open Scope string_scope.
Local Open Scope list_scope.
Local Open Scope Z_scope.

(** ** float64 *)

Module F64.

Definition prec : Z := 53.
Definition emax : Z := 1024.

Definition float64 : Type := spec_float.

Definition add : float64 -> float64 -> float64 := SFadd prec emax.
Definition sub : float64 -> float64 -> float64 := SFsub prec emax.
Definition mul : float64 -> float64 -> float64 := SFmul prec emax.
Definition div : float64 -> float64 -> float64 := SFdiv prec emax.

(** [x < y], [x > y], [x == y]; all false when an operand is NaN. *)
Definition ltb (x y : float64) : bool := SFltb x y.
Definition gtb (x y : float64) : bool := SFltb y x.
Definition eqb (x y : float64) : bool := SFeqb x y.
Definition leb (x y : float64) : bool := SFleb x y.


Definition is_inf (x : float64) : bool :=
  match x with S754_infinity _ => true | _ => false end.


(** [float64(n)] for an integer [n]: the nearest float64. *)
Definition of_Z (n : Z) : float64 := binary_normalize prec emax n 0 false.

(** The nearest float64 to [num / den] carrying sign [neg], for positive
    [num] and [den]. *)
Definition of_ratio (neg : bool) (num den : Z) : float64 :=
  let '(q, e, l) := SFdiv_core_binary prec emax num 0 den 0 in
  binary_round_aux prec emax neg q e l.

(** The integer part of a finite float64, truncated toward zero. *)
Definition trunc (x : float64) : Z :=
  match x with
  | S754_finite s m e =>
      let a := if 0 <=? e then Z.pos m * 2 ^ e else Z.pos m / 2 ^ (- e) in
      if s then - a else a
  | _ => 0
  end.

Definition zero : float64 := S754_zero false.

End F64.

Abbreviation float64 := F64.float64.

(** ** Fixed-width integers *)

Definition wrap32 (n : Z) : Z := (n + 2 ^ 31) mod 2 ^ 32 - 2 ^ 31.

Definition int32_add (a b : Z) : Z := wrap32 (a + b).
Definition int32_sub (a b : Z) : Z := wrap32 (a - b).

(** [int32(x)] for a float64 [x]: truncation toward zero.  When the
    truncated value does not fit (or [x] is NaN or infinite) Go leaves the
    result to the implementation; the amd64 instruction CVTTSD2SL gives
    [-2^31], which is what is written here. *)
Definition int32_of_float64 (x : float64) : Z :=
  match x with
  | S754_nan | S754_infinity _ => - 2 ^ 31
  | _ => let t := F64.trunc x in
         if (- 2 ^ 31 <=? t) && (t <? 2 ^ 31) then t else - 2 ^ 31
  end.

(** ** Byte strings: package strings and unicode/utf8 *)

Module Strings.

Definition byte (c : ascii) : Z := Z.of_N (N_of_ascii c).
Definition chr (b : Z) : ascii := ascii_of_N (Z.to_N b).

Definition RuneError : Z := 0xFFFD.

Definition in_range (lo hi b : Z) : bool := (lo <=? b) && (b <=? hi).

(** utf8's table [first] with [acceptRanges]: for a leading byte, the
    width of the encoding and the range accepted for the second byte. *)
Definition first (b0 : Z) : option (nat * Z * Z) :=
  if in_range 0xC2 0xDF b0 then Some (2%nat, 0x80, 0xBF)
  else if b0 =? 0xE0 then Some (3%nat, 0xA0, 0xBF)
  else if in_range 0xE1 0xEC b0 then Some (3%nat, 0x80, 0xBF)
  else if b0 =? 0xED then Some (3%nat, 0x80, 0x9F)
  else if in_range 0xEE 0xEF b0 then Some (3%nat, 0x80, 0xBF)
  else if b0 =? 0xF0 then Some (4%nat, 0x90, 0xBF)
  else if in_range 0xF1 0xF3 b0 then Some (4%nat, 0x80, 0xBF)
  else if b0 =? 0xF4 then Some (4%nat, 0x80, 0x8F)
  else None.

(** utf8.DecodeRuneInString on a non-empty string: the first rune and its
    width in bytes; an invalid or short encoding is [RuneError] of width
    1.  The payload bits [b land mask] are written [b - lead], which is
    the same number on the ranges accepted. *)
Definition DecodeRuneInString (s : string) : Z * nat :=
  match s with
  | EmptyString => (RuneError, 0%nat)
  | String c0 r0 =>
    let b0 := byte c0 in
    if b0 <? 0x80 then (b0, 1%nat)
    else
      match first b0, r0 with
      | Some (2%nat, lo, hi), String c1 _ =>
          let b1 := byte c1 in
          if in_range lo hi b1
          then ((b0 - 0xC0) * 64 + (b1 - 0x80), 2%nat)
          else (RuneError, 1%nat)
      | Some (3%nat, lo, hi), String c1 (String c2 _) =>
          let b1 := byte c1 in
          let b2 := byte c2 in
          if in_range lo hi b1 && in_range 0x80 0xBF b2
          then ((b0 - 0xE0) * 4096 + (b1 - 0x80) * 64 + (b2 - 0x80), 3%nat)
          else (RuneError, 1%nat)
      | Some (4%nat, lo, hi), String c1 (String c2 (String c3 _)) =>
          let b1 := byte c1 in
          let b2 := byte c2 in
          let b3 := byte c3 in
          if in_range lo hi b1 && in_range 0x80 0xBF b2 && in_range 0x80 0xBF b3
          then ((b0 - 0xF0) * 262144 + (b1 - 0x80) * 4096
                + (b2 - 0x80) * 64 + (b3 - 0x80), 4%nat)
          else (RuneError, 1%nat)
      | _, _ => (RuneError, 1%nat)
      end
  end.

(** utf8.AppendRune: the UTF-8 encoding of a rune; surrogates and values
    out of range are encoded as [RuneError]. *)
Definition EncodeRune (r : Z) : string :=
  if (0 <=? r) && (r <? 0x80) then String (chr r) ""
  else if in_range 0x80 0x7FF r then
    String (chr (0xC0 + r / 64)) (String (chr (0x80 + r mod 64)) "")
  else if (r <? 0) || (0x10FFFF <? r) || in_range 0xD800 0xDFFF r then
    String (chr 0xEF) (String (chr 0xBF) (String (chr 0xBD) ""))
  else if r <=? 0xFFFF then
    String (chr (0xE0 + r / 4096))
      (String (chr (0x80 + (r / 64) mod 64)) (String (chr (0x80 + r mod 64)) ""))
  else
    String (chr (0xF0 + r / 262144))
      (String (chr (0x80 + (r / 4096) mod 64))
         (String (chr (0x80 + (r / 64) mod 64)) (String (chr (0x80 + r mod 64)) ""))).

(** unicode.ToLower.  Exact below 0x80.  Of the code points from 0x80 on,
    Go's case tables send exactly two below 0x80: U+0130 to [i] and
    U+212A to [k]; every other one goes to a code point that is again at
    least 0x80, written here as itself (nothing below reads the bytes of
    such a rune, only that they are not ASCII). *)
Definition unicode_ToLower (r : Z) : Z :=
  if in_range 0x41 0x5A r then r + 32
  else if r =? 0x130 then 0x69
  else if r =? 0x212A then 0x6B
  else r.

(** strings.Map over the runes of [s]; [skip] counts the bytes of the
    current rune still to be passed over. *)
Fixpoint mapRunes (mapping : Z -> Z) (skip : nat) (s : string) : string :=
  match s with
  | EmptyString => EmptyString
  | String _ r =>
      match skip with
      | S k => mapRunes mapping k r
      | O =>
          let '(rune, width) := DecodeRuneInString s in
          EncodeRune (mapping rune) +:+ mapRunes mapping (Nat.pred width) r
      end
  end.

(** strings.ToLower.  On a string of ASCII bytes this lowers the letters
    A to Z byte by byte, which is Go's fast path. *)
Definition ToLower (s : string) : string := mapRunes unicode_ToLower 0 s.

(** strings.HasSuffix and strings.TrimSuffix. *)
Definition HasSuffix (s suffix : string) : bool :=
  (String.length suffix <=? String.length s)%nat
  && String.eqb
       (substring (String.length s - String.length suffix) (String.length suffix) s)
       suffix.

Definition TrimSuffix (s suffix : string) : string :=
  if HasSuffix s suffix
  then substring 0 (String.length s - String.length suffix) s
  else s.

End Strings.

(** ** Package strconv: ParseFloat, and the verbs %d and %.1f of fmt *)

Module Strconv.

Import Strings.

Definition is_digit (c : ascii) : bool := in_range 0x30 0x39 (byte c).

(** ['a' <= lower(c) && lower(c) <= 'f'] with strconv's [lower(c) = c | 0x20]. *)
Definition is_hex_letter (c : ascii) : bool :=
  in_range 0x61 0x66 (byte c) || in_range 0x41 0x46 (byte c).

Definition digit_val (c : ascii) : Z := byte c - 0x30.

(** [lower(c) - 'a' + 10] for a hexadecimal letter. *)
Definition hex_letter_val (c : ascii) : Z :=
  (if byte c <? 0x61 then byte c + 0x20 else byte c) - 0x61 + 10.

(** [lower(c) == x] for a lower-case letter [x]. *)
Definition lower_is (x : ascii) (c : ascii) : bool :=
  Ascii.eqb c x || (byte c + 0x20 =? byte x).

Inductive NumError : Type := ErrSyntax | ErrRange.

(** The variables of readFloat's digit loop.  [mantissa] keeps every
    digit (strconv keeps 19 and a truncation flag, and re-reads the
    digits when that is not enough to round), so [nd] is also the number
    of digits held by [mantissa]. *)
Record digits : Type := mkDigits {
  sawdot : bool;
  sawdigits : bool;
  nd : Z;
  dp : Z;
  mantissa : Z;
  underscores : bool
}.

Definition digits0 : digits := mkDigits false false 0 0 0 false.

(** readFloat's loop over the mantissa; returns the state and what is
    left of the string. *)
Fixpoint readDigits (hex : bool) (st : digits) (s : string) : digits * string :=
  match s with
  | EmptyString => (st, s)
  | String c r =>
      if Ascii.eqb c "_" then
        readDigits hex
          (mkDigits (sawdot st) (sawdigits st) (nd st) (dp st) (mantissa st) true) r
      else if Ascii.eqb c "." then
        if sawdot st then (st, s)
        else readDigits hex
               (mkDigits true (sawdigits st) (nd st) (nd st) (mantissa st)
                  (underscores st)) r
      else if is_digit c then
        if Ascii.eqb c "0" && (nd st =? 0) then
          readDigits hex
            (mkDigits (sawdot st) true (nd st) (dp st - 1) (mantissa st)
               (underscores st)) r
        else
          readDigits hex
            (mkDigits (sawdot st) true (nd st + 1) (dp st)
               (mantissa st * (if hex then 16 else 10) + digit_val c)
               (underscores st)) r
      else if hex && is_hex_letter c then
        readDigits hex
          (mkDigits (sawdot st) true (nd st + 1) (dp st)
             (mantissa st * 16 + hex_letter_val c) (underscores st)) r
      else (st, s)
  end.

(** readFloat's loop over the digits of the exponent: [e] stops growing
    once it has reached 10000. *)
Fixpoint readExpDigits (e : Z) (us : bool) (s : string) : Z * bool * string :=
  match s with
  | EmptyString => (e, us, s)
  | String c r =>
      if is_digit c then
        readExpDigits (if e <? 10000 then e * 10 + digit_val c else e) us r
      else if Ascii.eqb c "_" then readExpDigits e true r
      else (e, us, s)
  end.

Record floatParts : Type := mkParts {
  fp_mantissa : Z;
  fp_exp : Z;
  fp_neg : bool;
  fp_hex : bool;
  fp_underscores : bool;
  fp_rest : string
}.

(** readFloat, the optional sign. *)
Definition readSign (s : string) : bool * string :=
  match s with
  | String c r =>
      if Ascii.eqb c "+" then (false, r)
      else if Ascii.eqb c "-" then (true, r)
      else (false, s)
  | EmptyString => (false, s)
  end.

(** readFloat, the base prefix: [0x] with at least one byte after it. *)
Definition readBase (s : string) : bool * string :=
  match s with
  | String z (String x (String c r)) =>
      if Ascii.eqb z "0" && lower_is "x" x then (true, String c r) else (false, s)
  | _ => (false, s)
  end.

(** readFloat, the optional exponent: what it adds to [dp], the
    underscore flag and the rest of the string; [None] when the exponent
    is cut short, or missing after a hexadecimal mantissa. *)
Definition readExponent (hex us : bool) (s : string) : option (Z * bool * string) :=
  match s with
  | String c r =>
      if lower_is (if hex then "p" else "e")%char c then
        match r with
        | EmptyString => None
        | String c1 r1 =>
            let '(esign, s4) :=
              if Ascii.eqb c1 "+" then (1, r1)
              else if Ascii.eqb c1 "-" then (-1, r1)
              else (1, r) in
            match s4 with
            | EmptyString => None
            | String d _ =>
                if negb (is_digit d) then None
                else
                  let '(e, us', rest) := readExpDigits 0 us s4 in
                  Some (e * esign, us', rest)
            end
        end
      else if hex then None
      else Some (0, us, s)
  | EmptyString => if hex then None else Some (0, us, s)
  end.

(** readFloat: [None] when the string does not start with a number. *)
Definition readFloat (s : string) : option floatParts :=
  let '(neg, s1) := readSign s in
  let '(hex, s2) := readBase s1 in
  let '(st, s3) := readDigits hex digits0 s2 in
  if negb (sawdigits st) then None
  else
    let dp := if sawdot st then dp st else nd st in
    let dp := if hex then dp * 4 else dp in
    let ndMant := if hex then nd st * 4 else nd st in
    match readExponent hex (underscores st) s3 with
    | None => None
    | Some (e, us, rest) =>
        Some (mkParts (mantissa st)
                (if mantissa st =? 0 then 0 else dp + e - ndMant)
                neg hex us rest)
    end.

(** underscoreOK (atoi.go): underscores only between digits, or between a
    base prefix and a digit. *)
Fixpoint underscoreLoop (hex : bool) (saw : ascii) (s : string) : bool :=
  match s with
  | EmptyString => negb (Ascii.eqb saw "_")
  | String c r =>
      if is_digit c || (hex && is_hex_letter c) then underscoreLoop hex "0" r
      else if Ascii.eqb c "_" then
        if Ascii.eqb saw "0" then underscoreLoop hex "_" r else false
      else if Ascii.eqb saw "_" then false
      else underscoreLoop hex "!" r
  end.

Definition underscoreOK (s : string) : bool :=
  let s1 :=
    match s with
    | String c r => if Ascii.eqb c "-" || Ascii.eqb c "+" then r else s
    | EmptyString => s
    end in
  match s1 with
  | String z (String x r) =>
      if Ascii.eqb z "0" && (lower_is "b" x || lower_is "o" x || lower_is "x" x)
      then underscoreLoop (lower_is "x" x) "0" r
      else underscoreLoop false "^" s1
  | _ => underscoreLoop false "^" s1
  end.

(** The byte [c], lowered when it is one of A to Z. *)
Definition asciiLower (c : ascii) : ascii :=
  if in_range 0x41 0x5A (byte c) then chr (byte c + 0x20) else c.

(** commonPrefixLenIgnoreCase(s, prefix) for a lower-case [prefix]. *)
Fixpoint commonPrefixLenIgnoreCase (s prefix : string) : nat :=
  match s, prefix with
  | String c r, String p q =>
      if Ascii.eqb (asciiLower c) p then S (commonPrefixLenIgnoreCase r q) else O
  | _, _ => O
  end.

(** special, the case of the infinities: [s] is what follows the sign,
    [nsign] the width of the sign. *)
Definition specialInf (sign : bool) (nsign : nat) (s : string) : option (float64 * nat) :=
  let n := commonPrefixLenIgnoreCase s "infinity" in
  let n := if (3 <? n)%nat && (n <? 8)%nat then 3%nat else n in
  if (n =? 3)%nat || (n =? 8)%nat
  then Some (S754_infinity sign, (nsign + n)%nat) else None.

(** special: the infinities and NaN, with the number of bytes read. *)
Definition special (s : string) : option (float64 * nat) :=
  match s with
  | EmptyString => None
  | String c r =>
      if Ascii.eqb c "+" then specialInf false 1%nat r
      else if Ascii.eqb c "-" then specialInf true 1%nat r
      else if lower_is "i" c then specialInf false 0%nat s
      else if lower_is "n" c then
        if (commonPrefixLenIgnoreCase s "nan" =? 3)%nat
        then Some (S754_nan, 3%nat) else None
      else None
  end.

(** The float64 nearest to [mantissa * 10^exp] (base ten) or to
    [mantissa * 2^exp] (base sixteen), with the sign [neg]. *)
Definition atof (neg hex : bool) (mantissa exp : Z) : float64 :=
  if mantissa =? 0 then S754_zero neg
  else if hex then
    if 0 <=? exp then F64.of_ratio neg (mantissa * 2 ^ exp) 1
    else F64.of_ratio neg mantissa (2 ^ (- exp))
  else
    if 0 <=? exp then F64.of_ratio neg (mantissa * 10 ^ exp) 1
    else F64.of_ratio neg mantissa (10 ^ (- exp)).

(** strconv.ParseFloat(s, 64): the value and the error.  A string that is
    not a number in full is a syntax error; a number that rounds to an
    infinity is a range error.  (strconv checks the underscores of the
    part it has read before it finds that something is left over; either
    way the result is the syntax error.) *)
Definition ParseFloat (s : string) : float64 * option NumError :=
  match special s with
  | Some (v, n) =>
      if (n =? String.length s)%nat then (v, None) else (F64.zero, Some ErrSyntax)
  | None =>
      match readFloat s with
      | None => (F64.zero, Some ErrSyntax)
      | Some p =>
          if negb (String.eqb (fp_rest p) "") then (F64.zero, Some ErrSyntax)
          else if fp_underscores p && negb (underscoreOK s)
          then (F64.zero, Some ErrSyntax)
          else
            let v := atof (fp_neg p) (fp_hex p) (fp_mantissa p) (fp_exp p) in
            if F64.is_inf v then (v, Some ErrRange) else (v, None)
      end
  end.

(** The verb %d. *)
Definition FormatInt (n : Z) : string := NilZero.string_of_int (Z.to_int n).

(** The verb %.1f: one digit after the point, the exact value rounded to
    nearest, ties to even. *)
Definition FormatFloat1 (x : float64) : string :=
  match x with
  | S754_nan => "NaN"
  | S754_infinity false => "+Inf"
  | S754_infinity true => "-Inf"
  | S754_zero s => (if s then "-" else "") +:+ "0.0"
  | S754_finite s m e =>
      let t :=
        if 0 <=? e then Z.pos m * 2 ^ e * 10
        else
          let d := 2 ^ (- e) in
          let q := (Z.pos m * 10) / d in
          let r := (Z.pos m * 10) mod d in
          if (d <? 2 * r) || ((d =? 2 * r) && Z.odd q) then q + 1 else q in
      (if s then "-" else "") +:+ FormatInt (t / 10) +:+ "." +:+ FormatInt (t mod 10)
  end.

End Strconv.

(** ** Package gke: the records the engine reads (types.go) *)

Inductive result (A : Type) : Type :=
  | Ok (a : A)
  | Err (msg : string).
Arguments Ok {A} a.
Arguments Err {A} msg.

(** time.Time, as a number of seconds; the zero value is 0. *)
Definition Time : Type := Z.

Module Gke.

Record Container : Type := {
  Container_Name : string;
  Container_Image : string;
  Container_Status : string;
  Container_Ready : bool;
  Container_Restart : Z          (* int32 *)
}.

Record Pod : Type := {
  Pod_Name : string;
  Pod_Namespace : string;
  Pod_Status : string;
  Pod_NodeName : string;
  Pod_PodIP : string;
  Pod_HostIP : string;
  Pod_Labels : gmap string string;
  Pod_CreatedAt : Time;
  Pod_Ready : bool;
  Pod_Containers : list Container
}.

(** CPUUsage and MemoryUsage have the same four fields. *)
Record Usage : Type := {
  Usage_Current : string;
  Usage_Percentage : float64;
  Usage_Limit : string;
  Usage_Request : string
}.

Record Volume : Type := {
  Volume_Name : string;
  Volume_Type : string;
  Volume_MountPath : string;
  Volume_Used : string;
  Volume_Available : string;
  Volume_Total : string
}.

Record DiskUsage : Type := {
  Disk_Used : string;
  Disk_Available : string;
  Disk_Total : string;
  Disk_Volumes : gmap string Volume
}.

Record ContainerUsage : Type := {
  ContainerUsage_Name : string;
  ContainerUsage_CPU : Usage;
  ContainerUsage_Memory : Usage
}.

Record ResourceUsage : Type := {
  RU_PodName : string;
  RU_Namespace : string;
  RU_CPU : Usage;
  RU_Memory : Usage;
  RU_Disk : DiskUsage;
  RU_Timestamp : Time;
  RU_Containers : list ContainerUsage
}.

(** The zero values Go gives to the fields a composite literal leaves out. *)
Definition Usage_zero : Usage := Build_Usage "" F64.zero "" "".
Definition DiskUsage_zero : DiskUsage := Build_DiskUsage "" "" "" ∅.

(** What the engine calls of *gke.Service: the cluster and the metrics
    API behind it are the environment, a pair of functions here. *)
Record Service : Type := {
  GetAllPods : string -> result (list Pod);
  GetPodResourceUsage : string -> string -> result ResourceUsage
}.

End Gke.

(** ** Package optimization: types.go *)

Module Optimization.

Import Strings Strconv.

Definition PriorityHigh : string := "HIGH".
Definition PriorityMedium : string := "MEDIUM".
Definition PriorityLow : string := "LOW".

Definition RecommendationCPU : string := "CPU".
Definition RecommendationMemory : string := "MEMORY".
Definition RecommendationReplica : string := "REPLICA".
Definition RecommendationStorage : string := "STORAGE".
Definition RecommendationHealth : string := "HEALTH".
Definition RecommendationSecurity : string := "SECURITY".

Record OptimizationCriteria : Type := {
  CPUThreshold : float64;
  MemoryThreshold : float64;
  HealthThreshold : Z;           (* int32 *)
  IdleThreshold : float64
}.

Record ResourceMetric : Type := {
  Current : string;
  Request : string;
  Limit : string;
  Utilization : float64;
  Status : string;
  Suggestion : string
}.

Record ResourceAnalysis : Type := {
  CPU : ResourceMetric;
  Memory : ResourceMetric;
  Disk : ResourceMetric
}.

Record HealthStatus : Type := {
  Ready : bool;
  RestartCount : Z;              (* int32 *)
  LastRestart : Time;
  HealthScore : float64;
  HealthIssues : list string
}.

Record OptimizationIssue : Type := {
  Issue_Type : string;
  Severity : string;
  Issue_Description : string;
  Issue_Suggestion : string
}.

Record PodOptimization : Type := {
  PodName : string;
  Namespace : string;
  PodStatus : string;
  OptimizationScore : float64;
  Issues : list OptimizationIssue;
  PodResourceAnalysis : ResourceAnalysis;
  PodHealthStatus : HealthStatus
}.

Record Recommendation : Type := {
  Rec_ID : string;
  Rec_Type : string;
  Rec_Priority : string;
  Rec_Title : string;
  Rec_Description : string;
  Rec_Impact : string;
  Rec_Action : string;
  Rec_PodName : string;
  Rec_Namespace : string
}.

Record ResourceWaste : Type := {
  Waste_PodName : string;
  Waste_Namespace : string;
  ResourceType : string;
  Allocated : string;
  Used : string;
  WastePercentage : float64;
  WasteAmount : string
}.

Record WastageStats : Type := {
  TotalCPUWaste : string;
  TotalMemoryWaste : string;
  AvgWastePercentage : float64;  (* the field WastePercentage of WastageStats *)
  EstimatedCost : string
}.

Record ResourceWasteAnalysis : Type := {
  OverProvisionedPods : list ResourceWaste;
  UnderUtilizedPods : list ResourceWaste;
  IdlePods : list string;
  TotalWastage : WastageStats
}.

Record OptimizationSummary : Type := {
  TotalPods : Z;
  PodsNeedingOptimization : Z;
  PotentialCPUSavings : string;
  PotentialMemorySavings : string;
  OverallScore : float64
}.

Record OptimizationReport : Type := {
  ClusterName : string;
  ReportNamespace : string;
  GeneratedAt : Time;
  Summary : OptimizationSummary;
  Recommendations : list Recommendation;
  PodAnalysis : list PodOptimization;
  ReportResourceWaste : ResourceWasteAnalysis
}.

(** ** service.go *)

(** The Service: the gke service it calls and the criteria.  The mutex
    and the optional logger (which only prints) are left out. *)
Record Service : Type := {
  gkeService : Gke.Service;
  criteria : OptimizationCriteria
}.

Definition defaultCriteria : OptimizationCriteria :=
  {| CPUThreshold := F64.of_Z 20;
     MemoryThreshold := F64.of_Z 30;
     HealthThreshold := 5;
     IdleThreshold := F64.of_Z 5 |}.

Definition NewService (g : Gke.Service) : Service :=
  {| gkeService := g; criteria := defaultCriteria |}.

(** One attempt of parseResourceValue: the number before [suffix], when
    [value] ends in [suffix] and ParseFloat returns no error. *)
Definition parseWithSuffix (value suffix : string) : option float64 :=
  if HasSuffix value suffix then
    match ParseFloat (TrimSuffix value suffix) with
    | (val, None) => Some val
    | (_, Some _) => None
    end
  else None.

Definition parseResourceValue (value : string) : float64 :=
  if String.eqb value "" || String.eqb value "-" then F64.zero
  else
    let value := ToLower value in
    match parseWithSuffix value "m" with
    | Some val => val
    | None =>
    match parseWithSuffix value "mi" with
    | Some val => val
    | None =>
    match parseWithSuffix value "gi" with
    | Some val => F64.mul val (F64.of_Z 1024)
    | None =>
    match ParseFloat value with
    | (val, None) => val
    | (_, Some _) => F64.zero
    end end end end.

Definition calculateUtilization (current limit : string) : float64 :=
  let currentVal := parseResourceValue current in
  let limitVal := parseResourceValue limit in
  if F64.eqb limitVal F64.zero then F64.zero
  else F64.mul (F64.div currentVal limitVal) (F64.of_Z 100).

Definition calculateDiskUtilization (used total : string) : float64 :=
  let usedVal := parseResourceValue used in
  let totalVal := parseResourceValue total in
  if F64.eqb totalVal F64.zero then F64.zero
  else F64.mul (F64.div usedVal totalVal) (F64.of_Z 100).

Definition analyzeResourceMetric (s : Service)
    (current request limit resourceType : string) : ResourceMetric :=
  if negb (String.eqb limit "") && negb (String.eqb current "") then
    let utilization := calculateUtilization current limit in
    let metric (status suggestion : string) :=
      Build_ResourceMetric current request limit utilization status suggestion in
    if F64.ltb utilization (IdleThreshold (criteria s)) then
      metric "IDLE"
        (resourceType +:+ " 使用率極低 (" +:+ FormatFloat1 utilization
           +:+ "%)，考慮縮減資源")
    else if F64.ltb utilization (CPUThreshold (criteria s))
            && String.eqb resourceType "CPU" then
      metric "OVER_PROVISIONED"
        ("CPU 過度配置，使用率僅 " +:+ FormatFloat1 utilization
           +:+ "%，建議減少 CPU 限制")
    else if F64.ltb utilization (MemoryThreshold (criteria s))
            && String.eqb resourceType "MEMORY" then
      metric "OVER_PROVISIONED"
        ("記憶體過度配置，使用率僅 " +:+ FormatFloat1 utilization
           +:+ "%，建議減少記憶體限制")
    else if F64.gtb utilization (F64.of_Z 80) then
      metric "UNDER_PROVISIONED"
        (resourceType +:+ " 使用率過高 (" +:+ FormatFloat1 utilization
           +:+ "%)，建議增加資源限制")
    else
      metric "OPTIMAL"
        (resourceType +:+ " 使用率正常 (" +:+ FormatFloat1 utilization +:+ "%)")
  else
    Build_ResourceMetric current request limit F64.zero "UNKNOWN"
      "無法計算使用率，缺少限制或當前使用量資訊".

Definition analyzeResourceUsage (s : Service) (usage : Gke.ResourceUsage)
    : ResourceAnalysis :=
  let cpuMetric :=
    analyzeResourceMetric s (Gke.Usage_Current (Gke.RU_CPU usage))
      (Gke.Usage_Request (Gke.RU_CPU usage)) (Gke.Usage_Limit (Gke.RU_CPU usage))
      "CPU" in
  let memoryMetric :=
    analyzeResourceMetric s (Gke.Usage_Current (Gke.RU_Memory usage))
      (Gke.Usage_Request (Gke.RU_Memory usage))
      (Gke.Usage_Limit (Gke.RU_Memory usage)) "MEMORY" in
  let diskMetric :=
    {| Current := Gke.Disk_Used (Gke.RU_Disk usage);
       Request := "-";
       Limit := Gke.Disk_Total (Gke.RU_Disk usage);
       Utilization :=
         calculateDiskUtilization (Gke.Disk_Used (Gke.RU_Disk usage))
           (Gke.Disk_Total (Gke.RU_Disk usage));
       Status := "OPTIMAL";
       Suggestion := "磁碟使用正常" |} in
  {| CPU := cpuMetric; Memory := memoryMetric; Disk := diskMetric |}.

(** The loop of analyzeHealthStatus over the containers: the running
    [totalRestarts] (int32) and [healthIssues]. *)
Definition healthStep (acc : Z * list string) (container : Gke.Container)
    : Z * list string :=
  let '(totalRestarts, healthIssues) := acc in
  let totalRestarts := int32_add totalRestarts (Gke.Container_Restart container) in
  let healthIssues :=
    if 0 <? Gke.Container_Restart container then
      healthIssues ++
        ["容器 " +:+ Gke.Container_Name container +:+ " 已重啟 "
           +:+ FormatInt (Gke.Container_Restart container) +:+ " 次"]
    else healthIssues in
  let healthIssues :=
    if negb (Gke.Container_Ready container) then
      healthIssues ++ ["容器 " +:+ Gke.Container_Name container +:+ " 未就緒"]
    else healthIssues in
  (totalRestarts, healthIssues).

Definition analyzeHealthStatus (s : Service) (pod : Gke.Pod) : HealthStatus :=
  let '(totalRestarts, healthIssues) :=
    fold_left healthStep (Gke.Pod_Containers pod) (0, []) in
  let healthScore := F64.of_Z 100 in
  let healthScore :=
    if HealthThreshold (criteria s) <? totalRestarts then
      F64.sub healthScore
        (F64.mul (F64.of_Z (int32_sub totalRestarts (HealthThreshold (criteria s))))
           (F64.of_Z 10))
    else healthScore in
  let healthScore :=
    if negb (Gke.Pod_Ready pod) then F64.sub healthScore (F64.of_Z 30)
    else healthScore in
  let healthScore :=
    if negb (String.eqb (Gke.Pod_Status pod) "Running")
    then F64.sub healthScore (F64.of_Z 40)
    else healthScore in
  let healthScore :=
    if F64.ltb healthScore F64.zero then F64.zero else healthScore in
  {| Ready := Gke.Pod_Ready pod;
     RestartCount := totalRestarts;
     LastRestart := 0;
     HealthScore := healthScore;
     HealthIssues := healthIssues |}.

Definition identifyOptimizationIssues (s : Service)
    (resourceAnalysis : ResourceAnalysis) (healthStatus : HealthStatus)
    (pod : Gke.Pod) : list OptimizationIssue :=
  let issues := [] in
  let issues :=
    if String.eqb (Status (CPU resourceAnalysis)) "OVER_PROVISIONED" then
      issues ++ [Build_OptimizationIssue "CPU_OVER_PROVISIONED" PriorityMedium
                   "CPU 資源過度配置" (Suggestion (CPU resourceAnalysis))]
    else if String.eqb (Status (CPU resourceAnalysis)) "UNDER_PROVISIONED" then
      issues ++ [Build_OptimizationIssue "CPU_UNDER_PROVISIONED" PriorityHigh
                   "CPU 資源不足" (Suggestion (CPU resourceAnalysis))]
    else issues in
  let issues :=
    if String.eqb (Status (Memory resourceAnalysis)) "OVER_PROVISIONED" then
      issues ++ [Build_OptimizationIssue "MEMORY_OVER_PROVISIONED" PriorityMedium
                   "記憶體資源過度配置" (Suggestion (Memory resourceAnalysis))]
    else if String.eqb (Status (Memory resourceAnalysis)) "UNDER_PROVISIONED" then
      issues ++ [Build_OptimizationIssue "MEMORY_UNDER_PROVISIONED" PriorityHigh
                   "記憶體資源不足" (Suggestion (Memory resourceAnalysis))]
    else issues in
  let issues :=
    if HealthThreshold (criteria s) <? RestartCount healthStatus then
      issues ++ [Build_OptimizationIssue "HIGH_RESTART_COUNT" PriorityHigh
                   ("容器重啟次數過多 (" +:+ FormatInt (RestartCount healthStatus)
                      +:+ " 次)")
                   "檢查應用程式日誌，修復導致重啟的問題"]
    else issues in
  let issues :=
    if negb (Gke.Pod_Ready pod) then
      issues ++ [Build_OptimizationIssue "POD_NOT_READY" PriorityHigh
                   "Pod 未就緒" "檢查 Pod 狀態和事件，確保所有容器正常運行"]
    else issues in
  issues.

(** The body of the loop of calculateOptimizationScore. *)
Definition penalize (score : float64) (issue : OptimizationIssue) : float64 :=
  if String.eqb (Severity issue) PriorityHigh then F64.sub score (F64.of_Z 20)
  else if String.eqb (Severity issue) PriorityMedium then F64.sub score (F64.of_Z 10)
  else if String.eqb (Severity issue) PriorityLow then F64.sub score (F64.of_Z 5)
  else score.

Definition calculateOptimizationScore (s : Service)
    (resourceAnalysis : ResourceAnalysis) (healthStatus : HealthStatus)
    (issues : list OptimizationIssue) : float64 :=
  let score := fold_left penalize issues (F64.of_Z 100) in
  let score := F64.div (F64.add score (HealthScore healthStatus)) (F64.of_Z 2) in
  if F64.ltb score F64.zero then F64.zero else score.

(** strings.Contains. *)
Fixpoint Contains (s substr : string) : bool :=
  String.prefix substr s
  || match s with
     | EmptyString => false
     | String _ r => Contains r substr
     end.

Definition mapIssueTypeToRecommendationType (s : Service) (issueType : string)
    : string :=
  if Contains issueType "CPU" then RecommendationCPU
  else if Contains issueType "MEMORY" then RecommendationMemory
  else if Contains issueType "RESTART" || Contains issueType "READY"
  then RecommendationHealth
  else RecommendationHealth.

(** The loop of generatePodRecommendations, from [idCounter] on. *)
Fixpoint recommendationsFrom (s : Service) (podOpt : PodOptimization)
    (idCounter : Z) (issues : list OptimizationIssue) : list Recommendation :=
  match issues with
  | [] => []
  | issue :: rest =>
      let '(impact, action) :=
        if String.eqb (Issue_Type issue) "CPU_OVER_PROVISIONED" then
          ("減少 CPU 成本，提高資源利用率", "調整 CPU requests 和 limits")
        else if String.eqb (Issue_Type issue) "MEMORY_OVER_PROVISIONED" then
          ("減少記憶體成本，提高資源利用率", "調整記憶體 requests 和 limits")
        else if String.eqb (Issue_Type issue) "HIGH_RESTART_COUNT" then
          ("提高應用程式穩定性和可用性", "檢查應用程式日誌並修復問題")
        else if String.eqb (Issue_Type issue) "POD_NOT_READY" then
          ("確保服務正常運行", "檢查 Pod 狀態和健康檢查")
        else ("", "") in
      {| Rec_ID := "REC-" +:+ PodName podOpt +:+ "-" +:+ FormatInt idCounter;
         Rec_Type := mapIssueTypeToRecommendationType s (Issue_Type issue);
         Rec_Priority := Severity issue;
         Rec_Title := Issue_Description issue;
         Rec_Description := Issue_Suggestion issue;
         Rec_Impact := impact;
         Rec_Action := action;
         Rec_PodName := PodName podOpt;
         Rec_Namespace := Namespace podOpt |}
      :: recommendationsFrom s podOpt (idCounter + 1) rest
  end.

Definition generatePodRecommendations (s : Service) (podOpt : PodOptimization)
    : list Recommendation :=
  recommendationsFrom s podOpt 1 (Issues podOpt).

(** The variables of the loop of analyzeResourceWaste. *)
Record wasteAcc : Type := {
  overProvisionedPods : list ResourceWaste;
  idlePods : list string;
  totalCPUWaste : float64;
  totalMemoryWaste : float64
}.

Definition wasteOf (podAnalysis : PodOptimization) (resourceType : string)
    (m : ResourceMetric) : ResourceWaste :=
  let wastePercentage := F64.sub (F64.of_Z 100) (Utilization m) in
  {| Waste_PodName := PodName podAnalysis;
     Waste_Namespace := Namespace podAnalysis;
     ResourceType := resourceType;
     Allocated := Limit m;
     Used := Current m;
     WastePercentage := wastePercentage;
     WasteAmount := FormatFloat1 wastePercentage +:+ "%" |}.

Definition wasteStep (s : Service) (acc : wasteAcc) (podAnalysis : PodOptimization)
    : wasteAcc :=
  let cpu := CPU (PodResourceAnalysis podAnalysis) in
  let mem := Memory (PodResourceAnalysis podAnalysis) in
  let acc :=
    if String.eqb (Status cpu) "OVER_PROVISIONED" then
      let w := wasteOf podAnalysis "CPU" cpu in
      {| overProvisionedPods := overProvisionedPods acc ++ [w];
         idlePods := idlePods acc;
         totalCPUWaste := F64.add (totalCPUWaste acc) (WastePercentage w);
         totalMemoryWaste := totalMemoryWaste acc |}
    else acc in
  let acc :=
    if String.eqb (Status mem) "OVER_PROVISIONED" then
      let w := wasteOf podAnalysis "MEMORY" mem in
      {| overProvisionedPods := overProvisionedPods acc ++ [w];
         idlePods := idlePods acc;
         totalCPUWaste := totalCPUWaste acc;
         totalMemoryWaste := F64.add (totalMemoryWaste acc) (WastePercentage w) |}
    else acc in
  if F64.ltb (Utilization cpu) (IdleThreshold (criteria s))
     && F64.ltb (Utilization mem) (IdleThreshold (criteria s)) then
    {| overProvisionedPods := overProvisionedPods acc;
       idlePods := idlePods acc ++ [PodName podAnalysis];
       totalCPUWaste := totalCPUWaste acc;
       totalMemoryWaste := totalMemoryWaste acc |}
  else acc.

Definition len {A : Type} (l : list A) : Z := Z.of_nat (length l).

Definition analyzeResourceWaste (s : Service) (podAnalyses : list PodOptimization)
    : ResourceWasteAnalysis :=
  let acc :=
    fold_left (wasteStep s) podAnalyses
      {| overProvisionedPods := []; idlePods := [];
         totalCPUWaste := F64.zero; totalMemoryWaste := F64.zero |} in
  let avgWastePercentage :=
    if 0 <? len (overProvisionedPods acc) then
      F64.div (F64.add (totalCPUWaste acc) (totalMemoryWaste acc))
        (F64.of_Z (len (overProvisionedPods acc) * 2))
    else F64.zero in
  {| OverProvisionedPods := overProvisionedPods acc;
     UnderUtilizedPods := [];
     IdlePods := idlePods acc;
     TotalWastage :=
       {| TotalCPUWaste := FormatFloat1 (totalCPUWaste acc) +:+ "%";
          TotalMemoryWaste := FormatFloat1 (totalMemoryWaste acc) +:+ "%";
          AvgWastePercentage := avgWastePercentage;
          EstimatedCost := "需要更多成本資訊來計算" |} |}.

Definition generateSummary (s : Service) (podAnalyses : list PodOptimization)
    (resourceWaste : ResourceWasteAnalysis) : OptimizationSummary :=
  let totalPods := len podAnalyses in
  let podsNeedingOptimization :=
    fold_left (fun n podAnalysis => if 0 <? len (Issues podAnalysis) then n + 1 else n)
      podAnalyses 0 in
  let totalScore :=
    fold_left (fun t podAnalysis => F64.add t (OptimizationScore podAnalysis))
      podAnalyses F64.zero in
  let overallScore :=
    if 0 <? totalPods then F64.div totalScore (F64.of_Z totalPods) else F64.zero in
  {| TotalPods := totalPods;
     PodsNeedingOptimization := podsNeedingOptimization;
     PotentialCPUSavings := TotalCPUWaste (TotalWastage resourceWaste);
     PotentialMemorySavings := TotalMemoryWaste (TotalWastage resourceWaste);
     OverallScore := overallScore |}.

(** analyzePod; [now] is what time.Now() returns. *)
Definition analyzePod (s : Service) (now : Time) (pod : Gke.Pod)
    : result PodOptimization :=
  let resourceUsage :=
    match Gke.GetPodResourceUsage (gkeService s) (Gke.Pod_Name pod)
            (Gke.Pod_Namespace pod) with
    | Ok usage => usage
    | Err _ =>
        {| Gke.RU_PodName := Gke.Pod_Name pod;
           Gke.RU_Namespace := Gke.Pod_Namespace pod;
           Gke.RU_CPU := Gke.Usage_zero;
           Gke.RU_Memory := Gke.Usage_zero;
           Gke.RU_Disk := Gke.DiskUsage_zero;
           Gke.RU_Timestamp := now;
           Gke.RU_Containers := [] |}
    end in
  let resourceAnalysis := analyzeResourceUsage s resourceUsage in
  let healthStatus := analyzeHealthStatus s pod in
  let issues := identifyOptimizationIssues s resourceAnalysis healthStatus pod in
  let optimizationScore :=
    calculateOptimizationScore s resourceAnalysis healthStatus issues in
  Ok {| PodName := Gke.Pod_Name pod;
        Namespace := Gke.Pod_Namespace pod;
        PodStatus := Gke.Pod_Status pod;
        OptimizationScore := optimizationScore;
        Issues := issues;
        PodResourceAnalysis := resourceAnalysis;
        PodHealthStatus := healthStatus |}.

(** The loop of GenerateOptimizationReport over the Pods: a Pod whose
    analysis fails is passed over. *)
Definition reportStep (s : Service) (now : Time)
    (acc : list PodOptimization * list Recommendation) (pod : Gke.Pod)
    : list PodOptimization * list Recommendation :=
  let '(podAnalysis, recommendations) := acc in
  match analyzePod s now pod with
  | Err _ => acc
  | Ok podOpt =>
      (podAnalysis ++ [podOpt], recommendations ++ generatePodRecommendations s podOpt)
  end.

Definition GenerateOptimizationReport (s : Service) (now : Time) (namespace : string)
    : result OptimizationReport :=
  let namespace := if String.eqb namespace "" then "default" else namespace in
  match Gke.GetAllPods (gkeService s) namespace with
  | Err msg => Err ("無法取得 Pod 列表: " +:+ msg)
  | Ok pods =>
      let '(podAnalysis, recommendations) :=
        fold_left (reportStep s now) pods ([], []) in
      let resourceWaste := analyzeResourceWaste s podAnalysis in
      let summary := generateSummary s podAnalysis resourceWaste in
      Ok {| ClusterName := "GKE-Cluster";
            ReportNamespace := namespace;
            GeneratedAt := now;
            Summary := summary;
            Recommendations := recommendations;
            PodAnalysis := podAnalysis;
            ReportResourceWaste := resourceWaste |}
  end.

Definition GetOptimizationCriteria (s : Service) : OptimizationCriteria :=
  criteria s.

Definition UpdateOptimizationCriteria (s : Service) (c : OptimizationCriteria)
    : Service :=
  {| gkeService := gkeService s; criteria := c |}.

(** ** handler.go *)

(** The values a decoded JSON request holds behind [interface{}]. *)
#[warnings="-register-all"]
Inductive any : Type :=
  | AnyNil
  | AnyBool (b : bool)
  | AnyFloat64 (x : float64)
  | AnyString (s : string)
  | AnyArray (l : list any)
  | AnyObject (l : list (string * any)).

(** [arguments[key].(float64)]: the value and [ok]. *)
Definition asFloat64 (arguments : gmap string any) (key : string) : option float64 :=
  match arguments !! key with
  | Some (AnyFloat64 x) => Some x
  | _ => None
  end.

(** Handler.UpdateOptimizationCriteria: the service as the call leaves it
    and the field NewCriteria of the response (the JSON text of the
    response is not modelled). *)
Definition Handler_UpdateOptimizationCriteria (s : Service)
    (arguments : gmap string any) : Service * OptimizationCriteria :=
  let newCriteria :=
    {| CPUThreshold :=
         match asFloat64 arguments "cpuThreshold" with
         | Some cpuThreshold => cpuThreshold
         | None => CPUThreshold (GetOptimizationCriteria s)
         end;
       MemoryThreshold :=
         match asFloat64 arguments "memoryThreshold" with
         | Some memoryThreshold => memoryThreshold
         | None => MemoryThreshold (GetOptimizationCriteria s)
         end;
       HealthThreshold :=
         match asFloat64 arguments "healthThreshold" with
         | Some healthThreshold => int32_of_float64 healthThreshold
         | None => HealthThreshold (GetOptimizationCriteria s)
         end;
       IdleThreshold :=
         match asFloat64 arguments "idleThreshold" with
         | Some idleThreshold => idleThreshold
         | None => IdleThreshold (GetOptimizationCriteria s)
         end |} in
  (UpdateOptimizationCriteria s newCriteria, newCriteria).

End Optimization.

(** ** The properties, in the words of the specification

    The definitions below are what the statements at the end of the file
    are written with; none of them is used by the embedding above. *)

Module Spec.

Import Strings Strconv Optimization.

(** *** Quantities (the parser of the specification) *)

(** The unit a lower-case quantity ends in; the empty string for none. *)
Definition unitOf (q : string) : string :=
  if HasSuffix q "mi" then "mi"
  else if HasSuffix q "gi" then "gi"
  else if HasSuffix q "m" then "m"
  else "".

(** The quantity without its unit. *)
Definition numericPart (q : string) : string :=
  if HasSuffix q "mi" then TrimSuffix q "mi"
  else if HasSuffix q "gi" then TrimSuffix q "gi"
  else if HasSuffix q "m" then TrimSuffix q "m"
  else q.

(** m: millicores, unchanged; Mi: mebibytes, unchanged; Gi: mebibytes
    times 1024. *)
Definition scale (unit : string) (x : float64) : float64 :=
  if String.eqb unit "gi" then F64.mul x (F64.of_Z 1024) else x.

(** Modelled on the specification's wording of the parser: case is
    ignored, the trailing unit gives the scale, the empty string and "-"
    are 0, and so is every quantity whose numeric part does not parse. *)
Definition parse_spec (quantity : string) : float64 :=
  if String.eqb quantity "" || String.eqb quantity "-" then F64.zero
  else
    let q := ToLower quantity in
    match ParseFloat (numericPart q) with
    | (x, None) => scale (unitOf q) x
    | (_, Some _) => F64.zero
    end.

(** A quantity whose numeric part ParseFloat rejects. *)
Definition unparsable (quantity : string) : Prop :=
  snd (ParseFloat (numericPart (ToLower quantity))) <> None.



(** *** Classification *)

Definition knownStatus (status : string) : Prop :=
  status = "OPTIMAL" \/ status = "OVER_PROVISIONED" \/ status = "UNDER_PROVISIONED"
  \/ status = "IDLE" \/ status = "UNKNOWN".

(** *** Scores *)

(** [x] clamped below at 0. *)
Definition clampBelow0 (x : float64) : float64 :=
  if F64.ltb x F64.zero then F64.zero else x.

(** [0 <= x <= 100]. *)
Definition inScoreRange (x : float64) : Prop :=
  F64.leb F64.zero x = true /\ F64.leb x (F64.of_Z 100) = true.

(** The number of issues of a severity. *)
Definition countSeverity (severity : string) (issues : list OptimizationIssue) : Z :=
  len (List.filter (fun issue => String.eqb (Severity issue) severity) issues).

(** The health score as the specification computes it, over the
    integers: 100, less ten per restart above the threshold, less 30 for
    a Pod that is not ready, less 40 for one that is not Running, and
    not below 0. *)
Definition healthScore_spec (totalRestarts healthThreshold : Z) (ready : bool)
    (status : string) : Z :=
  Z.max 0
    (100
     - (if healthThreshold <? totalRestarts
        then (totalRestarts - healthThreshold) * 10 else 0)
     - (if ready then 0 else 30)
     - (if String.eqb status "Running" then 0 else 40)).

(** *** Waste *)

Definition overProvisioned (m : ResourceMetric) : bool :=
  String.eqb (Status m) "OVER_PROVISIONED".

(** The waste records of one Pod, as (resource type, waste percentage):
    one for each over-provisioned dimension, CPU first. *)
Definition wasteRecords (podAnalysis : PodOptimization) : list (string * float64) :=
  let cpu := CPU (PodResourceAnalysis podAnalysis) in
  let mem := Memory (PodResourceAnalysis podAnalysis) in
  (if overProvisioned cpu
   then [("CPU", F64.sub (F64.of_Z 100) (Utilization cpu))] else [])
  ++ (if overProvisioned mem
      then [("MEMORY", F64.sub (F64.of_Z 100) (Utilization mem))] else []).

(** The sum, in the order of the records, of the waste percentages of
    one resource type. *)
Definition sumWaste (resourceType : string) (records : list (string * float64))
    : float64 :=
  fold_left F64.add
    (map snd (List.filter (fun r => String.eqb (fst r) resourceType) records))
    F64.zero.

(** (sum of CPU waste + sum of memory waste) / (2 x number of records),
    or 0 when there is no record. *)
Definition averageWaste (records : list (string * float64)) : float64 :=
  match records with
  | [] => F64.zero
  | _ :: _ =>
      F64.div (F64.add (sumWaste "CPU" records) (sumWaste "MEMORY" records))
        (F64.of_Z (2 * len records))
  end.

(** *** Criteria update *)

(** The criteria a request leaves, field by field: a field supplied as a
    number takes it (healthThreshold after conversion to int32), any
    other field keeps its previous value. *)
Definition updated_spec (old : OptimizationCriteria) (arguments : gmap string any)
    : OptimizationCriteria :=
  let number (key : string) : option float64 :=
    match arguments !! key with
    | Some (AnyFloat64 x) => Some x
    | _ => None
    end in
  {| CPUThreshold := default (CPUThreshold old) (number "cpuThreshold");
     MemoryThreshold := default (MemoryThreshold old) (number "memoryThreshold");
     HealthThreshold :=
       default (HealthThreshold old) (int32_of_float64 <$> number "healthThreshold");
     IdleThreshold := default (IdleThreshold old) (number "idleThreshold") |}.

(** The service as Handler.UpdateOptimizationCriteria leaves it. *)
Definition serviceAfter (s : Service) (arguments : gmap string any) : Service :=
  fst (Handler_UpdateOptimizationCriteria s arguments).

(** *** Sample environments and inputs *)

(** A cluster without Pods whose metrics API is down. *)
Definition noMetrics : Gke.Service :=
  {| Gke.GetAllPods := fun _ => Ok [];
     Gke.GetPodResourceUsage := fun _ _ => Err "Metrics API 不可用" |}.

Definition sampleContainer (restarts : Z) : Gke.Container :=
  {| Gke.Container_Name := "app";
     Gke.Container_Image := "nginx";
     Gke.Container_Status := "Running";
     Gke.Container_Ready := true;
     Gke.Container_Restart := restarts |}.

(** A ready, Running Pod with one container. *)
Definition samplePod (name : string) (restarts : Z) : Gke.Pod :=
  {| Gke.Pod_Name := name;
     Gke.Pod_Namespace := "default";
     Gke.Pod_Status := "Running";
     Gke.Pod_NodeName := "node-1";
     Gke.Pod_PodIP := "10.0.0.1";
     Gke.Pod_HostIP := "10.0.0.2";
     Gke.Pod_Labels := ∅;
     Gke.Pod_CreatedAt := 0;
     Gke.Pod_Ready := true;
     Gke.Pod_Containers := [sampleContainer restarts] |}.

Definition sampleUsage (cpu cpuLimit memory memoryLimit : string)
    : Gke.ResourceUsage :=
  {| Gke.RU_PodName := "";
     Gke.RU_Namespace := "default";
     Gke.RU_CPU := Gke.Build_Usage cpu F64.zero cpuLimit "";
     Gke.RU_Memory := Gke.Build_Usage memory F64.zero memoryLimit "";
     Gke.RU_Disk := Gke.DiskUsage_zero;
     Gke.RU_Timestamp := 0;
     Gke.RU_Containers := [] |}.

(** A namespace of three Pods: a and b use 5% and 10% of their CPU
    limit, c uses half of it; all use half of their memory limit. *)
Definition threePods : Gke.Service :=
  {| Gke.GetAllPods :=
       fun _ => Ok [samplePod "a" 0; samplePod "b" 0; samplePod "c" 0];
     Gke.GetPodResourceUsage :=
       fun name _ =>
         if String.eqb name "a" then Ok (sampleUsage "10m" "200m" "128Mi" "256Mi")
         else if String.eqb name "b" then Ok (sampleUsage "20m" "200m" "128Mi" "256Mi")
         else Ok (sampleUsage "100m" "200m" "128Mi" "256Mi") |}.

(** One ready, Running Pod that never restarted. *)
Definition onePod : Gke.Service :=
  {| Gke.GetAllPods := fun _ => Ok [samplePod "a" 0];
     Gke.GetPodResourceUsage := fun _ _ => Err "Metrics API 不可用" |}.

(** The criteria after update_optimization_criteria with
    healthThreshold = -2147483648. *)
Definition lowestThreshold : OptimizationCriteria :=
  {| CPUThreshold := F64.of_Z 20;
     MemoryThreshold := F64.of_Z 30;
     HealthThreshold := - 2 ^ 31;
     IdleThreshold := F64.of_Z 5 |}.

End Spec.

(** ** Definitions used in the proofs *)

Module Aux.

Import Strings Strconv.

(** The last byte of a string. *)
Fixpoint lastChar (s : string) : option ascii :=
  match s with
  | EmptyString => None
  | String c EmptyString => Some c
  | String _ r => lastChar r
  end.

Fixpoint string_forall (P : ascii -> bool) (s : string) : bool :=
  match s with
  | EmptyString => true
  | String c r => P c && string_forall P r
  end.

Definition suffixOf (t s : string) : Prop := exists pre, s = pre +:+ t.

(** The bytes readFloat's digit loop passes over. *)
Definition mantChar (hex : bool) (c : ascii) : bool :=
  Ascii.eqb c "_" || Ascii.eqb c "." || is_digit c || (hex && is_hex_letter c).

(** The bytes readFloat's exponent loop passes over. *)
Definition expChar (c : ascii) : bool := is_digit c || Ascii.eqb c "_".

(** The bytes a number read in full can end in. *)
Definition numberEnd (c : ascii) : bool :=
  is_digit c || Ascii.eqb c "." || Ascii.eqb c "_".

(** The bytes an infinity or a NaN read in full ends in. *)
Definition specialEnd (c : ascii) : bool :=
  Ascii.eqb (asciiLower c) "f" || Ascii.eqb (asciiLower c) "y"
  || Ascii.eqb (asciiLower c) "n".

Definition floatEnd (c : ascii) : bool := numberEnd c || specialEnd c.

Definition fexp64 (e : Z) : Z := Z.max (e - 53) (-1074).

(** The 53-bit mantissa and the exponent of the float64 of a positive
    integer below 2^53. *)
Definition mant53 (p : positive) : positive :=
  Z.to_pos (Z.pos p * 2 ^ (53 - Z.pos (digits2_pos p))).
Definition exp53 (p : positive) : Z := Z.pos (digits2_pos p) - 53.

(** What an issue takes off the score. *)
Definition penalty (issue : Optimization.OptimizationIssue) : Z :=
  if String.eqb (Optimization.Severity issue) Optimization.PriorityHigh then 20
  else if String.eqb (Optimization.Severity issue) Optimization.PriorityMedium then 10
  else if String.eqb (Optimization.Severity issue) Optimization.PriorityLow then 5
  else 0.

(** The invariant of the loop of analyzeResourceWaste: the records so
    far and the two running totals. *)
Definition wasteInv (acc : Optimization.wasteAcc) (records : list (string * float64))
    : Prop :=
  map (fun w => (Optimization.ResourceType w, Optimization.WastePercentage w))
    (Optimization.overProvisionedPods acc) = records
  /\ Optimization.totalCPUWaste acc = Spec.sumWaste "CPU" records
  /\ Optimization.totalMemoryWaste acc = Spec.sumWaste "MEMORY" records.

End Aux.

(** * Proofs *)

Import Strings Strconv Optimization Spec Aux.

(** Case analysis on the test of every conditional of the goal. *)
Ltac case_ifs :=
  repeat match goal with |- context [if ?b then _ else _] => destruct b end.

(** ** Strings *)
Lemma app_cons (c : ascii) (a b : string) : String c a +:+ b = String c (a +:+ b).
Proof. reflexivity. Qed.

Lemma app_nil_r (a : string) : a +:+ "" = a.
Proof. induction a as [|c a IH]; [reflexivity|]. rewrite app_cons, IH. reflexivity. Qed.

Lemma app_assoc (a b c : string) : a +:+ (b +:+ c) = (a +:+ b) +:+ c.
Proof. induction a as [|x a IH]; [reflexivity|]. rewrite !app_cons, IH. reflexivity. Qed.

Lemma lastChar_cons (c : ascii) (r : string) :
  r <> "" -> lastChar (String c r) = lastChar r.
Proof. destruct r; [contradiction|reflexivity]. Qed.

Lemma lastChar_app (pre t : string) :
  t <> "" -> lastChar (pre +:+ t) = lastChar t.
Proof.
  intros Ht. induction pre as [|c pre IH]; [reflexivity|].
  rewrite app_cons, lastChar_cons; [exact IH|]. destruct pre; [exact Ht|discriminate].
Qed.

Lemma lastChar_forall (P : ascii -> bool) (s : string) (c : ascii) :
  string_forall P s = true -> lastChar s = Some c -> P c = true.
Proof.
  induction s as [|a r IH]; [discriminate|]. cbn [string_forall].
  intros [Ha Hr]%andb_true_iff. destruct r as [|b r'].
  - cbn. intros [= <-]. exact Ha.
  - rewrite lastChar_cons by discriminate. apply IH, Hr.
Qed.

Lemma lastChar_nonempty (s : string) : s <> "" -> exists c, lastChar s = Some c.
Proof.
  induction s as [|a r IH]; [contradiction|]. intros _. destruct r as [|b r'].
  - exists a. reflexivity.
  - rewrite lastChar_cons by discriminate. apply IH. discriminate.
Qed.

Lemma suffixOf_refl (s : string) : suffixOf s s.
Proof. exists "". reflexivity. Qed.

Lemma suffixOf_cons (c : ascii) (t s : string) : suffixOf t s -> suffixOf t (String c s).
Proof. intros [pre ->]. exists (String c pre). reflexivity. Qed.

Lemma suffixOf_trans (a b c : string) : suffixOf a b -> suffixOf b c -> suffixOf a c.
Proof.
  intros [p ->] [q ->]. exists (q +:+ p). apply app_assoc.
Qed.

Lemma lastChar_suffix (t s : string) : suffixOf t s -> t <> "" -> lastChar s = lastChar t.
Proof. intros [pre ->] Ht. apply lastChar_app, Ht. Qed.

Lemma substring_split (n : nat) : forall s : string,
  (n <= String.length s)%nat ->
  substring 0 n s +:+ substring n (String.length s - n) s = s.
Proof.
  induction n as [|n IH]; intros s Hn.
  - rewrite Nat.sub_0_r. destruct s as [|c r]; [reflexivity|].
    cbn [substring]. change ("" +:+ ?x) with x.
    clear. change (substring 0 (String.length (String c r)) (String c r) = String c r).
    generalize (String c r). intros s. induction s as [|a s IH]; [reflexivity|].
    cbn [String.length substring]. f_equal. exact IH.
  - destruct s as [|c r]; [cbn in Hn; lia|]. cbn [String.length] in *.
    cbn [substring]. rewrite app_cons. f_equal.
    replace (S (String.length r) - S n)%nat with (String.length r - n)%nat by lia.
    apply IH. lia.
Qed.

Lemma HasSuffix_sub (s suffix : string) :
  HasSuffix s suffix = true ->
  (String.length suffix <= String.length s)%nat
  /\ substring (String.length s - String.length suffix) (String.length suffix) s = suffix.
Proof.
  unfold HasSuffix. intros [Hle%Nat.leb_le Heq%String.eqb_eq]%andb_true_iff. auto.
Qed.

Lemma HasSuffix_split (s suffix : string) :
  HasSuffix s suffix = true -> s = TrimSuffix s suffix +:+ suffix.
Proof.
  intros H. unfold TrimSuffix. rewrite H. apply HasSuffix_sub in H as [Hle Hsub].
  pose proof (substring_split (String.length s - String.length suffix) s ltac:(lia)) as Hs.
  replace (String.length s - (String.length s - String.length suffix))%nat
    with (String.length suffix) in Hs by lia.
  rewrite Hsub in Hs. symmetry. exact Hs.
Qed.

Lemma HasSuffix_lastChar (s suffix : string) :
  HasSuffix s suffix = true -> suffix <> "" -> lastChar s = lastChar suffix.
Proof.
  intros H Hne. rewrite (HasSuffix_split s suffix H) at 1. apply lastChar_app, Hne.
Qed.

Lemma HasSuffix_same_length (s a b : string) :
  HasSuffix s a = true -> HasSuffix s b = true ->
  String.length a = String.length b -> a = b.
Proof.
  intros [_ Ha]%HasSuffix_sub [_ Hb]%HasSuffix_sub Hlen. rewrite <- Ha, <- Hb, Hlen.
  reflexivity.
Qed.


Lemma byte_range (c : ascii) : 0 <= byte c < 256.
Proof. unfold byte. pose proof (N_ascii_bounded c). lia. Qed.









(** ** float64: integers below 2^53 are computed with exactly *)

Lemma digits2_pos_bounds (m : positive) :
  2 ^ (Z.pos (digits2_pos m) - 1) <= Z.pos m < 2 ^ Z.pos (digits2_pos m).
Proof.
  induction m as [m IH|m IH|]; cbn [digits2_pos].
  - rewrite Pos2Z.inj_succ.
    replace (Z.succ (Z.pos (digits2_pos m)) - 1) with (Z.succ (Z.pos (digits2_pos m) - 1)) by lia.
    rewrite !Z.pow_succ_r by lia. lia.
  - rewrite Pos2Z.inj_succ.
    replace (Z.succ (Z.pos (digits2_pos m)) - 1) with (Z.succ (Z.pos (digits2_pos m) - 1)) by lia.
    rewrite !Z.pow_succ_r by lia. lia.
  - cbn. lia.
Qed.

Lemma digits2_pos_unique (m : positive) (d : Z) :
  2 ^ (d - 1) <= Z.pos m < 2 ^ d -> Z.pos (digits2_pos m) = d.
Proof.
  intros [Hlo Hhi]. pose proof (digits2_pos_bounds m) as [Blo Bhi].
  assert (Hd : 0 < d).
  { destruct (Z_lt_le_dec 0 d) as [|Hn]; [assumption|].
    assert (2 ^ d <= 1).
    { destruct (Z.eq_dec d 0) as [->|]; [cbn; lia|]. rewrite Z.pow_neg_r by lia. lia. }
    lia. }
  destruct (Z_lt_le_dec (Z.pos (digits2_pos m)) d) as [Hlt|Hge].
  - assert (2 ^ Z.pos (digits2_pos m) <= 2 ^ (d - 1)) by (apply Z.pow_le_mono_r; lia). lia.
  - destruct (Z_lt_le_dec d (Z.pos (digits2_pos m))) as [Hlt|Hle]; [|lia].
    assert (2 ^ d <= 2 ^ (Z.pos (digits2_pos m) - 1)) by (apply Z.pow_le_mono_r; lia). lia.
Qed.

Lemma digits2_pos_shift (m M : positive) (k : Z) :
  0 <= k -> Z.pos M = Z.pos m * 2 ^ k ->
  Z.pos (digits2_pos M) = Z.pos (digits2_pos m) + k.
Proof.
  intros Hk HM. apply digits2_pos_unique. pose proof (digits2_pos_bounds m) as [Blo Bhi].
  rewrite HM. replace (Z.pos (digits2_pos m) + k - 1) with (Z.pos (digits2_pos m) - 1 + k) by lia.
  rewrite !Z.pow_add_r by lia. assert (0 < 2 ^ k) by (apply Z.pow_pos_nonneg; lia). nia.
Qed.

Lemma iter_pos_nat {A : Type} (f : A -> A) (p : positive) (x : A) :
  SpecFloat.iter_pos f p x = Nat.iter (Pos.to_nat p) f x.
Proof.
  revert x. induction p as [p IH|p IH|]; intros x; cbn [SpecFloat.iter_pos].
  - rewrite !IH, Pos2Nat.inj_xI.
    replace (S (2 * Pos.to_nat p)) with (Pos.to_nat p + (Pos.to_nat p + 1))%nat by lia.
    rewrite !Nat.iter_add. reflexivity.
  - rewrite !IH, Pos2Nat.inj_xO.
    replace (2 * Pos.to_nat p)%nat with (Pos.to_nat p + Pos.to_nat p)%nat by lia.
    rewrite Nat.iter_add. reflexivity.
  - reflexivity.
Qed.

Lemma shr_1_even (m : positive) :
  shr_1 (Build_shr_record (Z.pos m~0) false false) = Build_shr_record (Z.pos m) false false.
Proof. reflexivity. Qed.

Lemma iter_shr_1_exact (n : nat) : forall (m M : positive),
  Z.pos M = Z.pos m * 2 ^ Z.of_nat n ->
  Nat.iter n shr_1 (Build_shr_record (Z.pos M) false false)
  = Build_shr_record (Z.pos m) false false.
Proof.
  induction n as [|n IH]; intros m M HM.
  - cbn in HM. cbn. f_equal. lia.
  - rewrite Nat.iter_succ, (IH (m~0)%positive M).
    + apply shr_1_even.
    + rewrite HM, Nat2Z.inj_succ, Z.pow_succ_r by lia. lia.
Qed.

Lemma iter_xO (m : positive) (k : positive) :
  Z.pos (Pos.iter xO m k) = Z.pos m * 2 ^ Z.pos k.
Proof.
  induction k as [|k IH] using Pos.peano_ind.
  - cbn. lia.
  - rewrite Pos.iter_succ, Pos2Z.inj_succ, Z.pow_succ_r by lia.
    rewrite Pos2Z.inj_xO, IH. lia.
Qed.

Lemma fexp_eq (e : Z) : fexp F64.prec F64.emax e = fexp64 e.
Proof. reflexivity. Qed.

(** A mantissa of 53 bits times a power of two: the rounding is exact. *)
Lemma binary_round_aux_exact (s : bool) (m M : positive) (e k : Z) :
  Z.pos (digits2_pos m) = 53 -> -1074 <= e <= 971 -> 0 <= k ->
  Z.pos M = Z.pos m * 2 ^ k ->
  binary_round_aux F64.prec F64.emax s (Z.pos M) (e - k) loc_Exact = S754_finite s m e.
Proof.
  intros Hd He Hk HM.
  pose proof (digits2_pos_shift m M k Hk HM) as HdM.
  unfold binary_round_aux, shr_fexp. cbn [Zdigits2 shr_record_of_loc].
  rewrite fexp_eq. rewrite HdM, Hd. unfold fexp64.
  replace (Z.max (53 + k + (e - k) - 53) (-1074) - (e - k)) with k by lia.
  assert (Hshr : shr (Build_shr_record (Z.pos M) false false) (e - k) k
                 = (Build_shr_record (Z.pos m) false false, e)).
  { unfold shr. destruct k as [|p|p]; [| |lia].
    - f_equal; [|lia]. f_equal. rewrite Z.pow_0_r in HM. lia.
    - f_equal; [|lia]. rewrite iter_pos_nat. apply iter_shr_1_exact.
      rewrite positive_nat_Z. exact HM. }
  rewrite Hshr. cbn [shr_m loc_of_shr_record round_nearest_even Zdigits2 shr_record_of_loc].
  rewrite fexp_eq, Hd. unfold fexp64.
  replace (Z.max (53 + e - 53) (-1074) - e) with 0 by lia.
  cbn [shr shr_m]. unfold F64.emax, F64.prec.
  destruct (Z.leb_spec e (1024 - 53)); [reflexivity|lia].
Qed.


Lemma binary_round_up (s : bool) (m M : positive) (e k : Z) :
  Z.pos (digits2_pos m) = 53 -> -1074 <= e <= 971 -> 0 <= k ->
  Z.pos m = Z.pos M * 2 ^ k ->
  binary_round F64.prec F64.emax s M (e + k) = S754_finite s m e.
Proof.
  intros Hd He Hk HM.
  pose proof (digits2_pos_shift M m k Hk HM) as HdM.
  unfold binary_round. rewrite fexp_eq. unfold fexp64.
  replace (Z.max (Z.pos (digits2_pos M) + (e + k) - 53) (-1074)) with e by lia.
  unfold shl_align. replace (e - (e + k)) with (- k) by lia.
  destruct k as [|p|p]; [| |lia];
    [change (- 0) with 0 | change (- Z.pos p) with (Z.neg p)]; cbv iota beta.
  - rewrite Z.pow_0_r in HM. assert (M = m) by lia. subst M.
    rewrite Z.add_0_r. replace e with (e - 0) at 1 by lia.
    apply binary_round_aux_exact; try lia.
  - replace e with (e - 0) at 1 by lia.
    apply binary_round_aux_exact; try lia.
    rewrite iter_xO. lia.
Qed.

Lemma binary_round_down (s : bool) (m M : positive) (e k : Z) :
  Z.pos (digits2_pos m) = 53 -> -1074 <= e <= 971 -> 0 <= k ->
  Z.pos M = Z.pos m * 2 ^ k ->
  binary_round F64.prec F64.emax s M (e - k) = S754_finite s m e.
Proof.
  intros Hd He Hk HM.
  pose proof (digits2_pos_shift m M k Hk HM) as HdM.
  unfold binary_round. rewrite fexp_eq. unfold fexp64.
  replace (Z.max (Z.pos (digits2_pos M) + (e - k) - 53) (-1074)) with e by lia.
  unfold shl_align. replace (e - (e - k)) with k by lia.
  destruct k as [|p|p]; [| |lia]; cbv iota beta; apply binary_round_aux_exact; try lia.
Qed.

Lemma mant53_spec (p : positive) :
  Z.pos p < 2 ^ 53 ->
  Z.pos (digits2_pos p) <= 53
  /\ Z.pos (mant53 p) = Z.pos p * 2 ^ (53 - Z.pos (digits2_pos p))
  /\ Z.pos (digits2_pos (mant53 p)) = 53.
Proof.
  intros Hp. pose proof (digits2_pos_bounds p) as [Blo Bhi].
  assert (Hd : Z.pos (digits2_pos p) <= 53).
  { destruct (Z_lt_le_dec 53 (Z.pos (digits2_pos p))) as [Hlt|]; [|lia].
    assert (2 ^ 53 <= 2 ^ (Z.pos (digits2_pos p) - 1)) by (apply Z.pow_le_mono_r; lia). lia. }
  assert (Hpow : 0 < 2 ^ (53 - Z.pos (digits2_pos p))) by (apply Z.pow_pos_nonneg; lia).
  assert (Hm : Z.pos (mant53 p) = Z.pos p * 2 ^ (53 - Z.pos (digits2_pos p))).
  { unfold mant53. rewrite Z2Pos.id; [reflexivity|nia]. }
  split; [exact Hd|]. split; [exact Hm|].
  rewrite (digits2_pos_shift p (mant53 p) (53 - Z.pos (digits2_pos p))); lia.
Qed.

(** Rounding an integer below 2^53, scaled by any power of two. *)
Lemma binary_round_scaled (s : bool) (p M : positive) (j : Z) :
  Z.pos p < 2 ^ 53 -> 0 <= j -> Z.pos M = Z.pos p * 2 ^ j ->
  binary_round F64.prec F64.emax s M (- j) = S754_finite s (mant53 p) (exp53 p).
Proof.
  intros Hp Hj HM. destruct (mant53_spec p Hp) as (Hd & Hm & Hd53).
  pose proof (Pos2Z.is_pos (digits2_pos p)) as Hdpos.
  unfold exp53.
  destruct (Z_le_gt_dec j (53 - Z.pos (digits2_pos p))) as [Hle|Hgt].
  - replace (- j) with (Z.pos (digits2_pos p) - 53 + (53 - Z.pos (digits2_pos p) - j)) by lia.
    apply binary_round_up; try lia.
    rewrite Hm, HM, <- Z.mul_assoc, <- Z.pow_add_r by lia. do 2 f_equal. lia.
  - replace (- j) with (Z.pos (digits2_pos p) - 53 - (j - (53 - Z.pos (digits2_pos p)))) by lia.
    apply binary_round_down; try lia.
    rewrite Hm, HM, <- Z.mul_assoc, <- Z.pow_add_r by lia. do 2 f_equal. lia.
Qed.

Lemma of_Z_pos (p : positive) :
  Z.pos p < 2 ^ 53 -> F64.of_Z (Z.pos p) = S754_finite false (mant53 p) (exp53 p).
Proof.
  intros Hp. unfold F64.of_Z, binary_normalize.
  apply (binary_round_scaled false p p 0); [lia|lia|]. rewrite Z.pow_0_r. lia.
Qed.

Lemma of_Z_neg (p : positive) :
  Z.pos p < 2 ^ 53 -> F64.of_Z (Z.neg p) = S754_finite true (mant53 p) (exp53 p).
Proof.
  intros Hp. unfold F64.of_Z, binary_normalize.
  apply (binary_round_scaled true p p 0); [lia|lia|]. rewrite Z.pow_0_r. lia.
Qed.

Lemma binary_normalize_scaled (n : Z) (e : Z) :
  Z.abs n < 2 ^ 53 -> e <= 0 ->
  binary_normalize F64.prec F64.emax (n * 2 ^ (- e)) e false = F64.of_Z n.
Proof.
  intros Hn He. remember (- e) as j eqn:Hj. replace e with (- j) by lia.
  assert (0 <= j) by lia. clear Hj He. assert (Hpow : 0 < 2 ^ j) by (apply Z.pow_pos_nonneg; lia).
  destruct n as [|p|p].
  - reflexivity.
  - rewrite of_Z_pos by lia.
    destruct (Z.pos p * 2 ^ j) as [|M|M] eqn:HM; [lia| |lia].
    cbn [binary_normalize]. apply binary_round_scaled; lia.
  - rewrite of_Z_neg by lia.
    destruct (Z.neg p * 2 ^ j) as [|M|M] eqn:HM; [lia|lia|].
    cbn [binary_normalize]. apply binary_round_scaled; lia.
Qed.

(** The aligned mantissa SFadd and SFsub use, for the float of an integer:
    the integer itself, scaled. *)
Lemma shl_align_of_Z (p : positive) (ez : Z) :
  Z.pos p < 2 ^ 53 -> ez <= exp53 p ->
  Z.pos (fst (shl_align (mant53 p) (exp53 p) ez)) = Z.pos p * 2 ^ (- ez).
Proof.
  intros Hp Hez. destruct (mant53_spec p Hp) as (Hd & Hm & Hd53).
  unfold exp53 in *. unfold shl_align.
  destruct (ez - (Z.pos (digits2_pos p) - 53)) as [|d|d] eqn:Hdiff; cbn [fst]; [|lia|].
  - rewrite Hm. do 2 f_equal. lia.
  - rewrite iter_xO, Hm, <- Z.mul_assoc, <- Z.pow_add_r by lia. do 2 f_equal. lia.
Qed.

Lemma exp53_nonpos (p : positive) : Z.pos p < 2 ^ 53 -> exp53 p <= 0.
Proof. intros Hp. destruct (mant53_spec p Hp) as (Hd & _). unfold exp53. lia. Qed.

Lemma of_Z_signed (s : bool) (p : positive) :
  Z.pos p < 2 ^ 53 ->
  F64.of_Z (cond_Zopp s (Z.pos p)) = S754_finite s (mant53 p) (exp53 p).
Proof. intros Hp. destruct s; [apply of_Z_neg|apply of_Z_pos]; exact Hp. Qed.

Lemma cond_Zopp_mul (s : bool) (x y : Z) : cond_Zopp s x * y = cond_Zopp s (x * y).
Proof. destruct s; cbn [cond_Zopp]; lia. Qed.

Lemma cond_Zopp_abs (s : bool) (x : Z) : Z.abs (cond_Zopp s x) = Z.abs x.
Proof. destruct s; cbn [cond_Zopp]; lia. Qed.

Lemma Z_signed (n : Z) :
  n <> 0 -> exists s p, n = cond_Zopp s (Z.pos p).
Proof.
  destruct n as [|p|p]; intros Hn; [contradiction| |].
  - exists false, p. reflexivity.
  - exists true, p. reflexivity.
Qed.

Lemma sub_finite (sa sb : bool) (p q : positive) :
  Z.pos p < 2 ^ 53 -> Z.pos q < 2 ^ 53 ->
  Z.abs (cond_Zopp sa (Z.pos p) - cond_Zopp sb (Z.pos q)) < 2 ^ 53 ->
  SFsub F64.prec F64.emax (S754_finite sa (mant53 p) (exp53 p))
    (S754_finite sb (mant53 q) (exp53 q))
  = F64.of_Z (cond_Zopp sa (Z.pos p) - cond_Zopp sb (Z.pos q)).
Proof.
  intros Hp Hq Hab. cbn [SFsub].
  set (ez := Z.min (exp53 p) (exp53 q)).
  pose proof (exp53_nonpos p Hp). pose proof (exp53_nonpos q Hq).
  rewrite !shl_align_of_Z by lia.
  rewrite <- !cond_Zopp_mul, <- Z.mul_sub_distr_r.
  apply binary_normalize_scaled; lia.
Qed.

Lemma add_finite (sa sb : bool) (p q : positive) :
  Z.pos p < 2 ^ 53 -> Z.pos q < 2 ^ 53 ->
  Z.abs (cond_Zopp sa (Z.pos p) + cond_Zopp sb (Z.pos q)) < 2 ^ 53 ->
  SFadd F64.prec F64.emax (S754_finite sa (mant53 p) (exp53 p))
    (S754_finite sb (mant53 q) (exp53 q))
  = F64.of_Z (cond_Zopp sa (Z.pos p) + cond_Zopp sb (Z.pos q)).
Proof.
  intros Hp Hq Hab. cbn [SFadd].
  set (ez := Z.min (exp53 p) (exp53 q)).
  pose proof (exp53_nonpos p Hp). pose proof (exp53_nonpos q Hq).
  rewrite !shl_align_of_Z by lia.
  rewrite <- !cond_Zopp_mul, <- Z.mul_add_distr_r.
  apply binary_normalize_scaled; lia.
Qed.

(** Subtraction and addition of integers are exact below 2^53. *)
Lemma sub_of_Z (a b : Z) :
  Z.abs a < 2 ^ 53 -> Z.abs b < 2 ^ 53 -> Z.abs (a - b) < 2 ^ 53 ->
  F64.sub (F64.of_Z a) (F64.of_Z b) = F64.of_Z (a - b).
Proof.
  intros Ha Hb Hab. unfold F64.sub.
  destruct (Z.eq_dec b 0) as [->|Hb0].
  - rewrite Z.sub_0_r. change (F64.of_Z 0) with (S754_zero false).
    destruct (Z.eq_dec a 0) as [->|Ha0]; [reflexivity|].
    destruct (Z_signed a Ha0) as (sa & p & ->). rewrite cond_Zopp_abs in Ha.
    rewrite of_Z_signed by lia. reflexivity.
  - destruct (Z_signed b Hb0) as (sb & q & ->). rewrite cond_Zopp_abs in Hb.
    destruct (Z.eq_dec a 0) as [->|Ha0].
    + change (F64.of_Z 0) with (S754_zero false). rewrite of_Z_signed by lia.
      cbn [SFsub]. replace (0 - cond_Zopp sb (Z.pos q)) with (cond_Zopp (negb sb) (Z.pos q))
        by (destruct sb; cbn; lia).
      rewrite of_Z_signed by lia. reflexivity.
    + destruct (Z_signed a Ha0) as (sa & p & ->). rewrite cond_Zopp_abs in Ha.
      rewrite !of_Z_signed by lia. apply sub_finite; lia.
Qed.

Lemma add_of_Z (a b : Z) :
  Z.abs a < 2 ^ 53 -> Z.abs b < 2 ^ 53 -> Z.abs (a + b) < 2 ^ 53 ->
  F64.add (F64.of_Z a) (F64.of_Z b) = F64.of_Z (a + b).
Proof.
  intros Ha Hb Hab. unfold F64.add.
  destruct (Z.eq_dec b 0) as [->|Hb0].
  - rewrite Z.add_0_r. change (F64.of_Z 0) with (S754_zero false).
    destruct (Z.eq_dec a 0) as [->|Ha0]; [reflexivity|].
    destruct (Z_signed a Ha0) as (sa & p & ->). rewrite cond_Zopp_abs in Ha.
    rewrite of_Z_signed by lia. reflexivity.
  - destruct (Z_signed b Hb0) as (sb & q & ->). rewrite cond_Zopp_abs in Hb.
    destruct (Z.eq_dec a 0) as [->|Ha0].
    + change (F64.of_Z 0) with (S754_zero false). rewrite Z.add_0_l.
      rewrite of_Z_signed by lia. reflexivity.
    + destruct (Z_signed a Ha0) as (sa & p & ->). rewrite cond_Zopp_abs in Ha.
      rewrite !of_Z_signed by lia. apply add_finite; lia.
Qed.

Lemma Zpos_mul_pow_digits (p q : positive) :
  Z.pos (digits2_pos p) + Z.pos (digits2_pos q) - 1 <= Z.pos (digits2_pos (p * q)).
Proof.
  pose proof (digits2_pos_bounds p) as [Plo Phi].
  pose proof (digits2_pos_bounds q) as [Qlo Qhi].
  pose proof (digits2_pos_bounds (p * q)) as [Rlo Rhi].
  destruct (Z_lt_le_dec (Z.pos (digits2_pos (p * q)))
              (Z.pos (digits2_pos p) + Z.pos (digits2_pos q) - 1)) as [Hlt|]; [|lia].
  exfalso.
  assert (H1 : 2 ^ Z.pos (digits2_pos (p * q))
               <= 2 ^ (Z.pos (digits2_pos p) - 1 + (Z.pos (digits2_pos q) - 1)))
    by (apply Z.pow_le_mono_r; lia).
  rewrite Z.pow_add_r in H1 by lia.
  rewrite Pos2Z.inj_mul in Rhi.
  assert (0 < 2 ^ (Z.pos (digits2_pos p) - 1)) by (apply Z.pow_pos_nonneg; lia).
  assert (0 < 2 ^ (Z.pos (digits2_pos q) - 1)) by (apply Z.pow_pos_nonneg; lia).
  nia.
Qed.

(** Multiplication of non-zero integers is exact when the product is
    below 2^53. *)
Lemma mul_of_Z (a b : Z) :
  a <> 0 -> b <> 0 -> Z.abs (a * b) < 2 ^ 53 ->
  F64.mul (F64.of_Z a) (F64.of_Z b) = F64.of_Z (a * b).
Proof.
  intros Ha0 Hb0 Hab. unfold F64.mul.
  assert (Ha : Z.abs a < 2 ^ 53) by nia.
  assert (Hb : Z.abs b < 2 ^ 53) by nia.
  - destruct (Z_signed b Hb0) as (sb & q & ->). rewrite cond_Zopp_abs in Hb.
    + destruct (Z_signed a Ha0) as (sa & p & ->). rewrite cond_Zopp_abs in Ha.
      assert (Hpq : Z.pos (p * q) < 2 ^ 53).
      { rewrite Pos2Z.inj_mul. destruct sa, sb; cbn [cond_Zopp] in Hab; lia. }
      replace (cond_Zopp sa (Z.pos p) * cond_Zopp sb (Z.pos q))
        with (cond_Zopp (xorb sa sb) (Z.pos (p * q)))
        by (rewrite Pos2Z.inj_mul; destruct sa, sb; cbn; lia).
      rewrite !of_Z_signed by lia. cbn [SFmul].
      destruct (mant53_spec p ltac:(lia)) as (Hdp & Hmp & _).
      destruct (mant53_spec q ltac:(lia)) as (Hdq & Hmq & _).
      destruct (mant53_spec (p * q) Hpq) as (Hdr & Hmr & Hd53).
      pose proof (Zpos_mul_pow_digits p q) as Hdig.
      pose proof (Pos2Z.is_pos (digits2_pos (p * q))) as Hpos.
      remember (53 - Z.pos (digits2_pos p) - Z.pos (digits2_pos q)
                + Z.pos (digits2_pos (p * q))) as k eqn:Hk.
      replace (exp53 p + exp53 q) with (exp53 (p * q) - k) by (unfold exp53; lia).
      assert (Hexp : -1074 <= exp53 (p * q) <= 971) by (unfold exp53; lia).
      assert (Hk0 : 0 <= k) by lia.
      apply binary_round_aux_exact; [exact Hd53|exact Hexp|exact Hk0|].
      rewrite Pos2Z.inj_mul, Hmp, Hmq, Hmr, Pos2Z.inj_mul.
      transitivity (Z.pos p * Z.pos q
              * (2 ^ (53 - Z.pos (digits2_pos p)) * 2 ^ (53 - Z.pos (digits2_pos q))));
        [ring|].
      transitivity (Z.pos p * Z.pos q * (2 ^ (53 - Z.pos (digits2_pos (p * q))) * 2 ^ k));
        [|ring].
      f_equal. rewrite <- !Z.pow_add_r by lia. f_equal. lia.
Qed.





(** ** strconv.ParseFloat *)

Lemma readDigits_spec (hex : bool) (s : string) : forall st st' rest,
  readDigits hex st s = (st', rest) ->
  exists pre, s = pre +:+ rest /\ string_forall (mantChar hex) pre = true
              /\ (pre = "" -> st' = st).
Proof.
  induction s as [|c r IH]; intros st st' rest H; cbn [readDigits] in H.
  - injection H as <- <-. exists "". auto.
  - destruct (Ascii.eqb c "_") eqn:E1.
    { apply IH in H as (pre & -> & Hall & _). exists (String c pre). cbn [string_forall].
      unfold mantChar at 1. rewrite E1. cbn. repeat split; auto. discriminate. }
    destruct (Ascii.eqb c ".") eqn:E2.
    { destruct (sawdot st).
      - injection H as <- <-. exists "". auto.
      - apply IH in H as (pre & -> & Hall & _). exists (String c pre). cbn [string_forall].
        unfold mantChar at 1. rewrite E1, E2. cbn. repeat split; auto. discriminate. }
    destruct (is_digit c) eqn:E3.
    { destruct (Ascii.eqb c "0" && (nd st =? 0));
        apply IH in H as (pre & -> & Hall & _); exists (String c pre); cbn [string_forall];
        unfold mantChar at 1; rewrite E1, E2, E3; cbn; repeat split; auto; discriminate. }
    destruct (hex && is_hex_letter c) eqn:E4.
    { apply IH in H as (pre & -> & Hall & _). exists (String c pre). cbn [string_forall].
      unfold mantChar at 1. rewrite E1, E2, E3, E4. cbn. repeat split; auto. discriminate. }
    injection H as <- <-. exists "". auto.
Qed.

Lemma readExpDigits_spec (s : string) : forall e us e' us' rest,
  readExpDigits e us s = (e', us', rest) ->
  exists pre, s = pre +:+ rest /\ string_forall expChar pre = true.
Proof.
  induction s as [|c r IH]; intros e us e' us' rest H; cbn [readExpDigits] in H.
  - injection H as <- <- <-. exists "". auto.
  - destruct (is_digit c) eqn:E1.
    { apply IH in H as (pre & -> & Hall). exists (String c pre). cbn [string_forall].
      unfold expChar at 1. rewrite E1. auto. }
    destruct (Ascii.eqb c "_") eqn:E2.
    { apply IH in H as (pre & -> & Hall). exists (String c pre). cbn [string_forall].
      unfold expChar at 1. rewrite E1, E2. auto. }
    injection H as <- <- <-. exists "". auto.
Qed.

Lemma mantChar_false_numberEnd c : mantChar false c = true -> numberEnd c = true.
Proof.
  unfold mantChar, numberEnd. cbn [andb]. rewrite orb_false_r.
  destruct (Ascii.eqb c "_"), (Ascii.eqb c "."), (is_digit c); cbn; auto.
Qed.

Lemma expChar_numberEnd c : expChar c = true -> numberEnd c = true.
Proof.
  unfold expChar, numberEnd.
  destruct (Ascii.eqb c "_"), (Ascii.eqb c "."), (is_digit c); cbn; auto.
Qed.

Lemma readSign_spec (s : string) neg s1 :
  readSign s = (neg, s1) ->
  suffixOf s1 s /\ (neg = true -> exists r, s = String "-" r).
Proof.
  unfold readSign. destruct s as [|c r].
  - intros [= <- <-]. split; [apply suffixOf_refl|discriminate].
  - destruct (Ascii.eqb c "+").
    { intros [= <- <-]. split; [apply suffixOf_cons, suffixOf_refl|discriminate]. }
    destruct (Ascii.eqb_spec c "-") as [->|].
    { intros [= <- <-]. split; [apply suffixOf_cons, suffixOf_refl|eauto]. }
    intros [= <- <-]. split; [apply suffixOf_refl|discriminate].
Qed.

Lemma readBase_spec (s : string) hex s2 :
  readBase s = (hex, s2) -> suffixOf s2 s.
Proof.
  unfold readBase. destruct s as [|z [|x [|c r]]]; try (intros [= <- <-]; apply suffixOf_refl).
  destruct (Ascii.eqb z "0" && lower_is "x" x); intros [= <- <-];
    [do 2 apply suffixOf_cons; apply suffixOf_refl|apply suffixOf_refl].
Qed.

Lemma readExponent_spec (hex us : bool) (s : string) e us' :
  readExponent hex us s = Some (e, us', "") ->
  (s = "" /\ hex = false) \/ exists c, lastChar s = Some c /\ numberEnd c = true.
Proof.
  unfold readExponent. destruct s as [|c r].
  - destruct hex; [discriminate|]. auto.
  - destruct (lower_is _ c).
    + destruct r as [|c1 r1]; [discriminate|].
      destruct (if Ascii.eqb c1 "+" then (1, r1)
                else if Ascii.eqb c1 "-" then (-1, r1) else (1, String c1 r1))
        as [esign s4] eqn:Hs4.
      assert (Hsuf4 : suffixOf s4 (String c1 r1)).
      { destruct (Ascii.eqb c1 "+"); [injection Hs4 as <- <-; apply suffixOf_cons, suffixOf_refl|].
        destruct (Ascii.eqb c1 "-"); injection Hs4 as <- <-;
          [apply suffixOf_cons, suffixOf_refl|apply suffixOf_refl]. }
      destruct s4 as [|d r4]; [discriminate|].
      destruct (is_digit d); cbn [negb]; [|discriminate].
      destruct (readExpDigits 0 us (String d r4)) as [[e0 us0] rest] eqn:Hre.
      apply readExpDigits_spec in Hre as (pre' & Hpre' & Hall').
      intros [= <- <- ->]. right. rewrite app_nil_r in Hpre'.
      assert (Hsufd : suffixOf (String d r4) (String c (String c1 r1)))
        by (apply suffixOf_cons, Hsuf4).
      destruct (lastChar_nonempty (String d r4)) as [x Hx]; [discriminate|].
      exists x. rewrite (lastChar_suffix _ _ Hsufd) by discriminate. split; [exact Hx|].
      apply expChar_numberEnd. eapply lastChar_forall; [exact Hall'|].
      rewrite <- Hpre'. exact Hx.
    + destruct hex; discriminate.
Qed.

Lemma readFloat_full (s : string) (p : floatParts) :
  readFloat s = Some p -> fp_rest p = "" ->
  exists c, lastChar s = Some c /\ numberEnd c = true.
Proof.
  unfold readFloat.
  destruct (readSign s) as [neg s1] eqn:Hs1. apply readSign_spec in Hs1 as [Hsuf1 _].
  destruct (readBase s1) as [hex s2] eqn:Hs2. apply readBase_spec in Hs2.
  destruct (readDigits hex digits0 s2) as [st s3] eqn:Hrd.
  apply readDigits_spec in Hrd as (pre & Hpre & Hall & Hst).
  destruct (sawdigits st) eqn:Hsaw; cbn [negb]; [|discriminate].
  assert (Hprene : pre <> "").
  { intros Hp. rewrite (Hst Hp) in Hsaw. discriminate. }
  assert (Hsuf : suffixOf s2 s) by (eapply suffixOf_trans; eassumption).
  destruct (readExponent hex (underscores st) s3) as [[[e us] rest]|] eqn:Hex; [|discriminate].
  intros [= <-]. cbn [fp_rest]. intros ->.
  apply readExponent_spec in Hex as [[-> ->]|(c & Hc & Hend)].
  - rewrite app_nil_r in Hpre. subst s2.
    destruct (lastChar_nonempty pre Hprene) as [c Hc]. exists c.
    rewrite (lastChar_suffix pre s Hsuf Hprene). split; [exact Hc|].
    apply mantChar_false_numberEnd. eapply lastChar_forall; eassumption.
  - exists c. split; [|exact Hend].
    assert (Hne : s3 <> "") by (intros ->; discriminate).
    rewrite <- Hc. apply lastChar_suffix; [|exact Hne].
    eapply suffixOf_trans; [|exact Hsuf]. exists pre. exact Hpre.
Qed.


Lemma cpl_le (t : string) : forall p,
  (commonPrefixLenIgnoreCase t p <= String.length t)%nat.
Proof.
  induction t as [|c r IH]; intros p; cbn; [lia|].
  destruct p as [|x q]; [lia|]. destruct (Ascii.eqb (asciiLower c) x); [|lia].
  specialize (IH q). lia.
Qed.

Lemma cpl_full (t : string) : forall p c,
  commonPrefixLenIgnoreCase t p = String.length t ->
  lastChar t = Some c ->
  get (String.length t - 1) p = Some (asciiLower c).
Proof.
  induction t as [|a r IH]; intros p c Hn Hl; [discriminate|].
  cbn [commonPrefixLenIgnoreCase String.length] in Hn.
  destruct p as [|x q]; [discriminate|].
  destruct (Ascii.eqb_spec (asciiLower a) x) as [Hax|]; [|discriminate].
  injection Hn as Hn. destruct r as [|b r'].
  - cbn in Hl. injection Hl as <-. cbn. congruence.
  - rewrite lastChar_cons in Hl by discriminate.
    specialize (IH q c Hn Hl). cbn [String.length] in *.
    replace (S (S (String.length r')) - 1)%nat with (S (S (String.length r' ) - 1))%nat by lia.
    cbn [get]. exact IH.
Qed.

Lemma specialInf_full (sign : bool) (nsign : nat) (t : string) v n :
  specialInf sign nsign t = Some (v, n) -> n = (nsign + String.length t)%nat ->
  v = S754_infinity sign /\ exists c, lastChar t = Some c /\ specialEnd c = true.
Proof.
  unfold specialInf. pose proof (cpl_le t "infinity") as Hle.
  set (n' := commonPrefixLenIgnoreCase t "infinity") in *.
  destruct ((3 <? n')%nat && (n' <? 8)%nat) eqn:Hmid.
  - cbn. intros [= <- <-] Hn. apply andb_true_iff in Hmid as [H3%Nat.ltb_lt _]. lia.
  - destruct ((n' =? 3)%nat || (n' =? 8)%nat) eqn:H38; [|discriminate].
    intros [= <- <-] Hn. split; [reflexivity|].
    assert (Hlen : n' = String.length t) by lia.
    assert (Hne : t <> "").
    { intros ->. cbn in Hlen. subst n'. cbn in H38. discriminate. }
    destruct (lastChar_nonempty t Hne) as [c Hc]. exists c. split; [exact Hc|].
    pose proof (cpl_full t "infinity" c Hlen Hc) as Hget.
    unfold specialEnd. rewrite <- Hlen in Hget.
    apply orb_true_iff in H38 as [H|H]; apply Nat.eqb_eq in H; rewrite H in Hget;
      cbn in Hget; injection Hget as <-; reflexivity.
Qed.

Lemma special_full (s : string) v n :
  special s = Some (v, n) -> n = String.length s ->
  exists c, lastChar s = Some c /\ specialEnd c = true.
Proof.
  unfold special. destruct s as [|c r]; [discriminate|].
  destruct (Ascii.eqb c "+").
  { intros H Hn. apply specialInf_full in H as (_ & x & Hx & Hend); [|cbn in *; lia].
    exists x. split; [|exact Hend]. rewrite lastChar_cons; [exact Hx|].
    intros ->. discriminate. }
  destruct (Ascii.eqb c "-").
  { intros H Hn. apply specialInf_full in H as (_ & x & Hx & Hend); [|cbn in *; lia].
    exists x. split; [|exact Hend]. rewrite lastChar_cons; [exact Hx|].
    intros ->. discriminate. }
  destruct (lower_is "i" c).
  { intros H Hn. apply specialInf_full in H as (_ & x & Hx & Hend); [|cbn in *; lia].
    exists x. split; assumption. }
  destruct (lower_is "n" c); [|discriminate].
  destruct (Nat.eqb_spec (commonPrefixLenIgnoreCase (String c r) "nan") 3) as [H3|];
    [|discriminate].
  intros [= <- <-] Hn. destruct (lastChar_nonempty (String c r)) as [x Hx]; [discriminate|].
  exists x. split; [exact Hx|].
  rewrite Hn in H3. pose proof (cpl_full _ "nan" x H3 Hx) as Hget.
  rewrite <- Hn in Hget. cbn in Hget. injection Hget as Hget.
  unfold specialEnd. rewrite <- Hget. reflexivity.
Qed.

Lemma ParseFloat_end (s : string) :
  snd (ParseFloat s) = None ->
  exists c, lastChar s = Some c /\ floatEnd c = true.
Proof.
  unfold ParseFloat, floatEnd. destruct (special s) as [[v n]|] eqn:Hsp.
  - destruct (Nat.eqb_spec n (String.length s)) as [Hn|]; [|discriminate].
    intros _. destruct (special_full s v n Hsp Hn) as (c & Hc & He).
    exists c. rewrite He, orb_true_r. auto.
  - destruct (readFloat s) as [p|] eqn:Hrf; [|discriminate].
    destruct (String.eqb_spec (fp_rest p) "") as [Hrest|]; cbn [negb]; [|discriminate].
    intros _. destruct (readFloat_full s p Hrf Hrest) as (c & Hc & He).
    exists c. rewrite He. auto.
Qed.




(** What a string that ends in a letter of a unit cannot be: a number in
    full. *)
Lemma ParseFloat_lastChar_error (s : string) (c : ascii) :
  lastChar s = Some c -> floatEnd c = false -> snd (ParseFloat s) <> None.
Proof.
  intros Hc Hend Hok. destruct (ParseFloat_end s Hok) as (c' & Hc' & Hend').
  congruence.
Qed.


(** ** parseResourceValue *)

(** A quantity ends in at most one of the units m, mi and gi. *)
Lemma HasSuffix_m_not_i (v : string) (suffix : string) :
  HasSuffix v "m" = true -> lastChar suffix = Some "i"%char -> HasSuffix v suffix = false.
Proof.
  intros Hm Hi. destruct (HasSuffix v suffix) eqn:E; [|reflexivity].
  pose proof (HasSuffix_lastChar v "m" Hm ltac:(discriminate)) as H1.
  assert (Hne : suffix <> "") by (intros ->; discriminate).
  pose proof (HasSuffix_lastChar v suffix E Hne) as H2.
  rewrite H1, Hi in H2. discriminate.
Qed.

Lemma HasSuffix_mi_not_gi (v : string) :
  HasSuffix v "mi" = true -> HasSuffix v "gi" = false.
Proof.
  intros Hmi. destruct (HasSuffix v "gi") eqn:E; [|reflexivity].
  pose proof (HasSuffix_same_length v "mi" "gi" Hmi E eq_refl). discriminate.
Qed.

(** A lower-case quantity that ends in a byte no number ends in is
    rejected by ParseFloat as it stands. *)
Lemma ParseFloat_unit_error (v suffix : string) (c : ascii) :
  HasSuffix v suffix = true -> lastChar suffix = Some c -> floatEnd c = false ->
  exists x err, ParseFloat v = (x, Some err).
Proof.
  intros Hs Hc Hend.
  assert (Hne : suffix <> "") by (intros ->; discriminate).
  pose proof (HasSuffix_lastChar v suffix Hs Hne) as Hlast. rewrite Hc in Hlast.
  pose proof (ParseFloat_lastChar_error v c Hlast Hend) as Herr.
  destruct (ParseFloat v) as [x [err|]]; [eauto|]. cbn in Herr. congruence.
Qed.

(** The source tries the units in turn and falls through to the next one
    when a number does not parse; the specification looks at the unit
    once.  They agree on every string. *)
Lemma parseResourceValue_spec (q : string) : parseResourceValue q = parse_spec q.
Proof.
  unfold parseResourceValue, parse_spec.
  destruct (String.eqb q "" || String.eqb q "-"); [reflexivity|].
  set (v := ToLower q). unfold parseWithSuffix, numericPart, unitOf.
  destruct (HasSuffix v "m") eqn:Hm.
  - rewrite (HasSuffix_m_not_i v "mi" Hm eq_refl), (HasSuffix_m_not_i v "gi" Hm eq_refl).
    destruct (ParseFloat (TrimSuffix v "m")) as [val [err|]]; [|reflexivity].
    destruct (ParseFloat_unit_error v "m" "m" Hm eq_refl eq_refl) as (x & e & ->).
    reflexivity.
  - destruct (HasSuffix v "mi") eqn:Hmi.
    + rewrite (HasSuffix_mi_not_gi v Hmi).
      destruct (ParseFloat (TrimSuffix v "mi")) as [val [err|]]; [|reflexivity].
      destruct (ParseFloat_unit_error v "mi" "i" Hmi eq_refl eq_refl) as (x & e & ->).
      reflexivity.
    + destruct (HasSuffix v "gi") eqn:Hgi; [|destruct (ParseFloat v) as [x [e|]]; reflexivity].
      destruct (ParseFloat (TrimSuffix v "gi")) as [val [err|]]; [|reflexivity].
      destruct (ParseFloat_unit_error v "gi" "i" Hgi eq_refl eq_refl) as (x & e & ->).
      reflexivity.
Qed.





(** A quantity whose numeric part does not parse is 0. *)
Lemma parseResourceValue_unparsable (q : string) :
  unparsable q -> parseResourceValue q = F64.zero.
Proof.
  intros Hq. rewrite parseResourceValue_spec. unfold parse_spec.
  destruct (String.eqb q "" || String.eqb q "-"); [reflexivity|].
  unfold unparsable in Hq.
  destruct (ParseFloat (numericPart (ToLower q))) as [x [err|]]; [reflexivity|].
  cbn in Hq. congruence.
Qed.

(** C7. The parser on the quantities of the specification: the empty
    string and "-" are 0, "150m" is 150, "256Mi" is 256 and "1Gi" is 1024
    (Gi is scaled by 1024); the result depends on the quantity through
    its lower-case form only, so the units are matched whatever their
    case; a quantity without a unit is the float ParseFloat reads; and
    on every string the source returns what the specification's parser
    returns, which is 0 whenever the numeric part does not parse (the
    result is a float64 in every case: there is no error to raise). *)
Theorem parseResourceValue_contract :
  parseResourceValue "" = F64.zero
  /\ parseResourceValue "-" = F64.zero
  /\ parseResourceValue "150m" = F64.of_Z 150
  /\ parseResourceValue "256Mi" = F64.of_Z 256
  /\ parseResourceValue "1Gi" = F64.of_Z 1024
  /\ parseResourceValue "1Gi" = F64.mul (F64.of_Z 1) (F64.of_Z 1024)
  /\ parseResourceValue "256MI" = F64.of_Z 256
  /\ parseResourceValue "1gI" = F64.of_Z 1024
  /\ parseResourceValue "150M" = F64.of_Z 150
  /\ (forall q q' : string,
        q <> "" -> q <> "-" -> q' <> "" -> q' <> "-" ->
        ToLower q = ToLower q' -> parseResourceValue q = parseResourceValue q')
  /\ (forall q : string,
        q <> "" -> q <> "-" -> unitOf (ToLower q) = "" ->
        forall x, ParseFloat (ToLower q) = (x, None) -> parseResourceValue q = x)
  /\ (forall q : string, parseResourceValue q = parse_spec q)
  /\ (forall q : string, unparsable q -> parseResourceValue q = F64.zero).
Proof.
  repeat match goal with |- _ = _ /\ _ => split; [vm_compute; reflexivity|] end.
  split; [|split; [|split]].
  - intros q q' H1 H2 H3 H4 Hlow. unfold parseResourceValue.
    apply String.eqb_neq in H1, H2, H3, H4. rewrite H1, H2, H3, H4, Hlow. reflexivity.
  - intros q H1 H2 Hu x Hx. rewrite parseResourceValue_spec. unfold parse_spec.
    apply String.eqb_neq in H1, H2. rewrite H1, H2. cbn [orb].
    assert (Hn : numericPart (ToLower q) = ToLower q).
    { unfold unitOf in Hu. unfold numericPart.
      destruct (HasSuffix (ToLower q) "mi"); [discriminate|].
      destruct (HasSuffix (ToLower q) "gi"); [discriminate|].
      destruct (HasSuffix (ToLower q) "m"); [discriminate|reflexivity]. }
    rewrite Hn, Hx, Hu. reflexivity.
  - exact parseResourceValue_spec.
  - exact parseResourceValue_unparsable.
Qed.

(** A quantity with a unit whose number does not parse, and one without
    a unit that does. *)
Lemma parseResourceValue_contract_witness :
  parseResourceValue "x1Gi" = F64.zero /\ parseResourceValue "0.5" = F64.of_ratio false 1 2
  /\ parseResourceValue "1GI" = parseResourceValue "1gi".
Proof.
  destruct parseResourceValue_contract
    as (_ & _ & _ & _ & _ & _ & _ & _ & _ & Hcase & Hraw & _ & Hzero).
  split; [|split].
  - apply Hzero. vm_compute. discriminate.
  - apply Hraw; [discriminate|discriminate|reflexivity|reflexivity].
  - apply Hcase; try discriminate. reflexivity.
Defined.






(** ** analyzeResourceMetric *)

(** C1 (as stated) fails: a limit that cannot be parsed counts as 0, the
    utilization is then 0, and with the default criteria the metric is
    IDLE, not UNKNOWN. *)
Lemma analyzeResourceMetric_unparsable_limit :
  unparsable "abc"
  /\ Status (analyzeResourceMetric (NewService noMetrics) "10m" "" "abc" "CPU") = "IDLE".
Proof. split; [vm_compute; discriminate|vm_compute; reflexivity]. Qed.

(** C1 (amended). The status is UNKNOWN exactly when the limit string or
    the current string is empty; every call returns one of the five
    statuses; and a non-empty limit that cannot be parsed gives the
    utilization 0, which the thresholds then classify. *)
Theorem analyzeResourceMetric_unknown_iff_empty
    (s : Service) (current request limit resourceType : string) :
  (Status (analyzeResourceMetric s current request limit resourceType) = "UNKNOWN"
   <-> limit = "" \/ current = "")
  /\ knownStatus (Status (analyzeResourceMetric s current request limit resourceType))
  /\ (limit <> "" -> current <> "" -> unparsable limit ->
      Utilization (analyzeResourceMetric s current request limit resourceType)
      = F64.zero).
Proof.
  unfold analyzeResourceMetric, knownStatus.
  destruct (String.eqb_spec limit "") as [Hl|Hl]; cbn [negb andb].
  { cbn. repeat split; auto; tauto. }
  destruct (String.eqb_spec current "") as [Hc|Hc]; cbn [negb andb].
  { cbn. repeat split; auto; tauto. }
  split; [|split].
  - case_ifs; cbn;
      (split; [discriminate|intros [?|?]; contradiction]).
  - case_ifs; cbn; tauto.
  - intros _ _ Hu.
    assert (Hz : calculateUtilization current limit = F64.zero).
    { unfold calculateUtilization. rewrite (parseResourceValue_unparsable limit Hu).
      reflexivity. }
    case_ifs; cbn; exact Hz.
Qed.

(** A limit of letters: the utilization is 0 and the status is not
    UNKNOWN. *)
Lemma analyzeResourceMetric_unknown_iff_empty_witness :
  Utilization (analyzeResourceMetric (NewService noMetrics) "10m" "" "abc" "CPU")
  = F64.zero
  /\ Status (analyzeResourceMetric (NewService noMetrics) "" "" "200m" "CPU")
     = "UNKNOWN".
Proof.
  split.
  - apply (analyzeResourceMetric_unknown_iff_empty (NewService noMetrics)
             "10m" "" "abc" "CPU");
      [discriminate|discriminate|vm_compute; discriminate].
  - apply (analyzeResourceMetric_unknown_iff_empty (NewService noMetrics)
             "" "" "200m" "CPU"). right. reflexivity.
Defined.

(** ** analyzePod *)



(** ** Handler.UpdateOptimizationCriteria *)

Lemma trunc_of_Z (n : Z) : Z.abs n < 2 ^ 53 -> F64.trunc (F64.of_Z n) = n.
Proof.
  intros Hn. destruct (Z.eq_dec n 0) as [->|Hn0]; [reflexivity|].
  destruct (Z_signed n Hn0) as (s & p & ->). rewrite cond_Zopp_abs in Hn.
  rewrite of_Z_signed by lia. destruct (mant53_spec p ltac:(lia)) as (Hd & Hm & _).
  cbn [F64.trunc]. unfold exp53. rewrite Hm.
  assert (Hp : 0 < 2 ^ (53 - Z.pos (digits2_pos p))) by (apply Z.pow_pos_nonneg; lia).
  destruct (Z.leb_spec 0 (Z.pos (digits2_pos p) - 53)) as [H0|H0].
  - replace (Z.pos (digits2_pos p) - 53) with 0 by lia.
    replace (53 - Z.pos (digits2_pos p)) with 0 by lia.
    rewrite !Z.pow_0_r, !Z.mul_1_r. destruct s; reflexivity.
  - replace (- (Z.pos (digits2_pos p) - 53)) with (53 - Z.pos (digits2_pos p)) by lia.
    rewrite Z.div_mul by lia. destruct s; reflexivity.
Qed.

Lemma of_Z_finite (n : Z) :
  Z.abs n < 2 ^ 53 ->
  F64.of_Z n = S754_zero false \/ exists s m e, F64.of_Z n = S754_finite s m e.
Proof.
  intros Hn. destruct (Z.eq_dec n 0) as [->|Hn0]; [left; reflexivity|right].
  destruct (Z_signed n Hn0) as (s & p & ->). rewrite cond_Zopp_abs in Hn.
  rewrite of_Z_signed by lia. eauto.
Qed.

(** A JSON number that is an integer of the int32 range converts to
    itself. *)
Lemma int32_of_float64_of_Z (n : Z) :
  - 2 ^ 31 <= n < 2 ^ 31 -> int32_of_float64 (F64.of_Z n) = n.
Proof.
  intros Hn. assert (Habs : Z.abs n < 2 ^ 53) by lia.
  pose proof (trunc_of_Z n Habs) as Ht. unfold int32_of_float64.
  destruct (of_Z_finite n Habs) as [H|(s & m & e & H)]; rewrite H in *; rewrite Ht;
    destruct (Z.leb_spec (- 2 ^ 31) n); destruct (Z.ltb_spec n (2 ^ 31)); cbn [andb];
    lia || reflexivity.
Qed.

Lemma asFloat64_number (arguments : gmap string any) (key : string) :
  asFloat64 arguments key
  = match arguments !! key with
    | Some (AnyFloat64 x) => Some x
    | _ => None
    end.
Proof. reflexivity. Qed.

(** C3 (as stated) fails for healthThreshold: the field is an int32, and
    a supplied 2.5 is stored as 2. *)
Lemma update_healthThreshold_truncated :
  HealthThreshold
    (snd (Handler_UpdateOptimizationCriteria (NewService noMetrics)
            {[ "healthThreshold" := AnyFloat64 (F64.of_ratio false 5 2) ]}))
  = 2
  /\ F64.of_Z 2 <> F64.of_ratio false 5 2.
Proof. split; [vm_compute; reflexivity|vm_compute; discriminate]. Qed.

(** C3 (amended). After an update the criteria are, field by field: the
    previous value for a field the request omits (or supplies as
    something other than a number); the supplied number for
    cpuThreshold, memoryThreshold and idleThreshold; and for
    healthThreshold the supplied number converted to int32, which is the
    number itself when it is an integer of the int32 range.  The
    response carries the same criteria, and the gke service is
    untouched.  In particular an update with cpuThreshold = 15 alone
    changes cpuThreshold only. *)
Theorem update_criteria_per_field (s : Service) (arguments : gmap string any) :
  criteria (serviceAfter s arguments) = updated_spec (criteria s) arguments
  /\ snd (Handler_UpdateOptimizationCriteria s arguments)
     = criteria (serviceAfter s arguments)
  /\ gkeService (serviceAfter s arguments) = gkeService s
  /\ (arguments !! "cpuThreshold" = None ->
      CPUThreshold (criteria (serviceAfter s arguments)) = CPUThreshold (criteria s))
  /\ (arguments !! "memoryThreshold" = None ->
      MemoryThreshold (criteria (serviceAfter s arguments)) = MemoryThreshold (criteria s))
  /\ (arguments !! "healthThreshold" = None ->
      HealthThreshold (criteria (serviceAfter s arguments)) = HealthThreshold (criteria s))
  /\ (arguments !! "idleThreshold" = None ->
      IdleThreshold (criteria (serviceAfter s arguments)) = IdleThreshold (criteria s))
  /\ (forall x, arguments !! "cpuThreshold" = Some (AnyFloat64 x) ->
      CPUThreshold (criteria (serviceAfter s arguments)) = x)
  /\ (forall x, arguments !! "memoryThreshold" = Some (AnyFloat64 x) ->
      MemoryThreshold (criteria (serviceAfter s arguments)) = x)
  /\ (forall x, arguments !! "idleThreshold" = Some (AnyFloat64 x) ->
      IdleThreshold (criteria (serviceAfter s arguments)) = x)
  /\ (forall x, arguments !! "healthThreshold" = Some (AnyFloat64 x) ->
      HealthThreshold (criteria (serviceAfter s arguments)) = int32_of_float64 x)
  /\ (forall n, - 2 ^ 31 <= n < 2 ^ 31 ->
      arguments !! "healthThreshold" = Some (AnyFloat64 (F64.of_Z n)) ->
      HealthThreshold (criteria (serviceAfter s arguments)) = n)
  /\ (arguments = {[ "cpuThreshold" := AnyFloat64 (F64.of_Z 15) ]} ->
      criteria (serviceAfter s arguments)
      = {| CPUThreshold := F64.of_Z 15;
           MemoryThreshold := MemoryThreshold (criteria s);
           HealthThreshold := HealthThreshold (criteria s);
           IdleThreshold := IdleThreshold (criteria s) |}).
Proof.
  unfold serviceAfter, Handler_UpdateOptimizationCriteria, updated_spec.
  cbn [fst snd criteria gkeService UpdateOptimizationCriteria CPUThreshold
         MemoryThreshold HealthThreshold IdleThreshold].
  unfold GetOptimizationCriteria. rewrite !asFloat64_number.
  split.
  { f_equal;
      match goal with
      | |- context [arguments !! ?k] => destruct (arguments !! k) as [[]|]; reflexivity
      end. }
  repeat split.
  - intros ->. reflexivity.
  - intros ->. reflexivity.
  - intros ->. reflexivity.
  - intros ->. reflexivity.
  - intros x ->. reflexivity.
  - intros x ->. reflexivity.
  - intros x ->. reflexivity.
  - intros x ->. reflexivity.
  - intros n Hn ->. apply int32_of_float64_of_Z, Hn.
  - intros ->. reflexivity.
Qed.

(** The request of the scenario, on the default criteria. *)
Lemma update_criteria_per_field_witness :
  criteria (serviceAfter (NewService noMetrics)
              {[ "cpuThreshold" := AnyFloat64 (F64.of_Z 15) ]})
  = {| CPUThreshold := F64.of_Z 15;
       MemoryThreshold := F64.of_Z 30;
       HealthThreshold := 5;
       IdleThreshold := F64.of_Z 5 |}
  /\ HealthThreshold
       (criteria (serviceAfter (NewService noMetrics)
                    {[ "healthThreshold" := AnyFloat64 (F64.of_Z 3) ]}))
     = 3.
Proof.
  split.
  - apply (update_criteria_per_field (NewService noMetrics)
             {[ "cpuThreshold" := AnyFloat64 (F64.of_Z 15) ]}). reflexivity.
  - apply (update_criteria_per_field (NewService noMetrics)
             {[ "healthThreshold" := AnyFloat64 (F64.of_Z 3) ]} ) with (n := 3);
      [lia|reflexivity].
Defined.

(** ** analyzeResourceWaste *)

Lemma sumWaste_snoc_same (resourceType : string) (records : list (string * float64))
    (w : float64) :
  sumWaste resourceType (records ++ [(resourceType, w)])
  = F64.add (sumWaste resourceType records) w.
Proof.
  unfold sumWaste. rewrite List.filter_app, List.map_app, List.fold_left_app. cbn [List.filter fst map fold_left].
  rewrite String.eqb_refl. reflexivity.
Qed.

Lemma sumWaste_snoc_other (resourceType other : string)
    (records : list (string * float64)) (w : float64) :
  String.eqb other resourceType = false ->
  sumWaste resourceType (records ++ [(other, w)]) = sumWaste resourceType records.
Proof.
  intros Hne. unfold sumWaste. rewrite List.filter_app, List.map_app, List.fold_left_app.
  cbn [List.filter fst map fold_left]. rewrite Hne. reflexivity.
Qed.

Lemma wasteStep_inv (s : Service) (acc : wasteAcc) (podAnalysis : PodOptimization)
    (records : list (string * float64)) :
  wasteInv acc records ->
  wasteInv (wasteStep s acc podAnalysis) (records ++ wasteRecords podAnalysis).
Proof.
  intros (Hrec & Hcpu & Hmem). unfold wasteStep, wasteRecords, overProvisioned.
  set (cpu := CPU (PodResourceAnalysis podAnalysis)).
  set (mem := Memory (PodResourceAnalysis podAnalysis)).
  assert (Hidle : forall acc' recs, wasteInv acc' recs ->
            wasteInv
              (if F64.ltb (Utilization cpu) (IdleThreshold (criteria s))
                  && F64.ltb (Utilization mem) (IdleThreshold (criteria s))
               then {| overProvisionedPods := overProvisionedPods acc';
                       idlePods := idlePods acc' ++ [PodName podAnalysis];
                       totalCPUWaste := totalCPUWaste acc';
                       totalMemoryWaste := totalMemoryWaste acc' |}
               else acc') recs).
  { intros acc' recs H. destruct (_ && _); [exact H|exact H]. }
  apply Hidle.
  destruct (String.eqb (Status cpu) "OVER_PROVISIONED");
    destruct (String.eqb (Status mem) "OVER_PROVISIONED");
    unfold wasteInv, wasteOf;
    cbn [overProvisionedPods totalCPUWaste totalMemoryWaste WastePercentage
           ResourceType app];
    rewrite ?List.map_app, ?Hrec, ?List.app_nil_r;
    cbn [map ResourceType WastePercentage];
    rewrite <- ?List.app_assoc; cbn [app].
  - split; [reflexivity|split].
    + rewrite Hcpu. change (records ++ [("CPU", ?a); ("MEMORY", ?b)])
        with (records ++ [("CPU", a)] ++ [("MEMORY", b)]).
      rewrite List.app_assoc, sumWaste_snoc_other by reflexivity.
      rewrite sumWaste_snoc_same. reflexivity.
    + rewrite Hmem. change (records ++ [("CPU", ?a); ("MEMORY", ?b)])
        with (records ++ [("CPU", a)] ++ [("MEMORY", b)]).
      rewrite List.app_assoc, sumWaste_snoc_same.
      rewrite sumWaste_snoc_other by reflexivity. reflexivity.
  - split; [reflexivity|split].
    + rewrite Hcpu, sumWaste_snoc_same. reflexivity.
    + rewrite Hmem, sumWaste_snoc_other by reflexivity. reflexivity.
  - split; [reflexivity|split].
    + rewrite Hcpu, sumWaste_snoc_other by reflexivity. reflexivity.
    + rewrite Hmem, sumWaste_snoc_same. reflexivity.
  - split; [reflexivity|split]; assumption.
Qed.

Lemma wasteFold_inv (s : Service) (podAnalyses : list PodOptimization) :
  forall acc records,
    wasteInv acc records ->
    wasteInv (fold_left (wasteStep s) podAnalyses acc)
      (records ++ flat_map wasteRecords podAnalyses).
Proof.
  induction podAnalyses as [|p rest IH]; intros acc records H; cbn [fold_left flat_map].
  - rewrite List.app_nil_r. exact H.
  - rewrite List.app_assoc. apply IH, wasteStep_inv, H.
Qed.

(** C4. The waste records are, Pod after Pod, one record for each
    over-provisioned dimension (CPU first, so at most two for a Pod),
    carrying 100 - utilization; the aggregate WastePercentage is (sum of
    the CPU waste + sum of the memory waste) / (2 x number of records),
    and 0 without records.  In the namespace of three Pods of which two
    use 5% and 10% of their CPU limit the records carry 95 and 90 and the
    average is 185/4 = 46.25. *)
Theorem analyzeResourceWaste_records_and_average
    (s : Service) (podAnalyses : list PodOptimization) :
  map (fun w => (ResourceType w, WastePercentage w))
    (OverProvisionedPods (analyzeResourceWaste s podAnalyses))
  = flat_map wasteRecords podAnalyses
  /\ AvgWastePercentage (TotalWastage (analyzeResourceWaste s podAnalyses))
     = averageWaste (flat_map wasteRecords podAnalyses)
  /\ Forall (fun p => (length (wasteRecords p) <= 2)%nat) podAnalyses
  /\ match GenerateOptimizationReport (NewService threePods) 0 "default" with
     | Ok report =>
         map (fun p => Utilization (CPU (PodResourceAnalysis p))) (PodAnalysis report)
         = [F64.of_Z 5; F64.of_Z 10; F64.of_Z 50]
         /\ map (fun w => (Waste_PodName w, ResourceType w, WastePercentage w))
              (OverProvisionedPods (ReportResourceWaste report))
            = [("a", "CPU", F64.of_Z 95); ("b", "CPU", F64.of_Z 90)]
         /\ AvgWastePercentage (TotalWastage (ReportResourceWaste report))
            = F64.of_ratio false 185 4
         /\ F64.of_ratio false 185 4
            = F64.div (F64.add (F64.of_Z 95) (F64.of_Z 90)) (F64.of_Z (2 * 2))
     | Err _ => False
     end.
Proof.
  pose proof (wasteFold_inv s podAnalyses
                {| overProvisionedPods := []; idlePods := [];
                   totalCPUWaste := F64.zero; totalMemoryWaste := F64.zero |} []
                (conj eq_refl (conj eq_refl eq_refl))) as (Hrec & Hcpu & Hmem).
  cbn [app] in Hrec, Hcpu, Hmem.
  split; [|split; [|split]].
  - exact Hrec.
  - unfold analyzeResourceWaste. cbn [TotalWastage AvgWastePercentage].
    set (acc := fold_left (wasteStep s) podAnalyses _) in *.
    assert (Hlen : len (overProvisionedPods acc) = len (flat_map wasteRecords podAnalyses)).
    { unfold len. rewrite <- Hrec, List.length_map. reflexivity. }
    rewrite Hlen, Hcpu, Hmem. unfold averageWaste.
    destruct (flat_map wasteRecords podAnalyses) as [|r records]; [reflexivity|].
    replace (0 <? len (r :: records)) with true
      by (symmetry; apply Z.ltb_lt; unfold len; cbn [length]; lia).
    rewrite Z.mul_comm. reflexivity.
  - apply Forall_forall. intros p _. unfold wasteRecords.
    destruct (overProvisioned _); destruct (overProvisioned _); cbn; lia.
  - vm_compute. repeat split.
Qed.

(** ** calculateOptimizationScore *)

Lemma penalize_of_Z (acc : Z) (issue : OptimizationIssue) :
  Z.abs acc + 20 < 2 ^ 53 ->
  penalize (F64.of_Z acc) issue = F64.of_Z (acc - penalty issue).
Proof.
  intros Hacc. unfold penalize, penalty.
  destruct (String.eqb (Severity issue) PriorityHigh); [apply sub_of_Z; lia|].
  destruct (String.eqb (Severity issue) PriorityMedium); [apply sub_of_Z; lia|].
  destruct (String.eqb (Severity issue) PriorityLow); [apply sub_of_Z; lia|].
  rewrite Z.sub_0_r. reflexivity.
Qed.

Lemma penalty_counts (issue : OptimizationIssue) (issues : list OptimizationIssue) :
  20 * countSeverity "HIGH" (issue :: issues)
  + 10 * countSeverity "MEDIUM" (issue :: issues)
  + 5 * countSeverity "LOW" (issue :: issues)
  = penalty issue
    + (20 * countSeverity "HIGH" issues + 10 * countSeverity "MEDIUM" issues
       + 5 * countSeverity "LOW" issues).
Proof.
  unfold countSeverity, penalty, len, PriorityHigh, PriorityMedium, PriorityLow.
  cbn [List.filter].
  destruct (String.eqb (Severity issue) "HIGH") eqn:EH;
    destruct (String.eqb (Severity issue) "MEDIUM") eqn:EM;
    destruct (String.eqb (Severity issue) "LOW") eqn:EL;
    try (apply String.eqb_eq in EH; rewrite EH in *; discriminate);
    try (apply String.eqb_eq in EM; rewrite EM in *; discriminate);
    cbn [length]; lia.
Qed.

Lemma penalty_bounds (issue : OptimizationIssue) : 0 <= penalty issue <= 20.
Proof.
  unfold penalty. case_ifs; lia.
Qed.

Lemma fold_penalize_of_Z (issues : list OptimizationIssue) : forall acc : Z,
  Z.abs acc + 20 * len issues < 2 ^ 53 ->
  fold_left penalize issues (F64.of_Z acc)
  = F64.of_Z (acc - (20 * countSeverity "HIGH" issues
                     + 10 * countSeverity "MEDIUM" issues
                     + 5 * countSeverity "LOW" issues)).
Proof.
  induction issues as [|issue rest IH]; intros acc Hacc.
  - cbn. rewrite Z.sub_0_r. reflexivity.
  - cbn [fold_left]. unfold len in *. cbn [length] in Hacc.
    rewrite Nat2Z.inj_succ in Hacc. pose proof (penalty_bounds issue) as Hp.
    rewrite penalize_of_Z by lia. rewrite IH by lia.
    rewrite penalty_counts. f_equal. lia.
Qed.

(** C6. The optimization score is ((100 - 20 x HIGH issues - 10 x MEDIUM
    issues - 5 x LOW issues) + healthScore) / 2, clamped below at 0, for
    every health status and every issue list that fits in memory (fewer
    than 2^48 issues): the subtractions of the loop are then exact. *)
Theorem calculateOptimizationScore_formula
    (s : Service) (resourceAnalysis : ResourceAnalysis) (healthStatus : HealthStatus)
    (issues : list OptimizationIssue) :
  len issues < 2 ^ 48 ->
  calculateOptimizationScore s resourceAnalysis healthStatus issues
  = clampBelow0
      (F64.div
         (F64.add
            (F64.of_Z (100 - 20 * countSeverity "HIGH" issues
                           - 10 * countSeverity "MEDIUM" issues
                           - 5 * countSeverity "LOW" issues))
            (HealthScore healthStatus))
         (F64.of_Z 2)).
Proof.
  intros Hlen. unfold calculateOptimizationScore, clampBelow0.
  rewrite fold_penalize_of_Z by (unfold len in *; lia).
  replace (100 - (20 * countSeverity "HIGH" issues + 10 * countSeverity "MEDIUM" issues
                  + 5 * countSeverity "LOW" issues))
    with (100 - 20 * countSeverity "HIGH" issues - 10 * countSeverity "MEDIUM" issues
          - 5 * countSeverity "LOW" issues) by lia.
  reflexivity.
Qed.

(** One HIGH and one MEDIUM issue with a health score of 70:
    ((100 - 20 - 10) + 70) / 2 = 70. *)
Lemma calculateOptimizationScore_formula_witness :
  calculateOptimizationScore (NewService noMetrics)
    (analyzeResourceUsage (NewService noMetrics)
       (sampleUsage "10m" "200m" "128Mi" "256Mi"))
    (analyzeHealthStatus (NewService noMetrics) (samplePod "a" 8))
    [Build_OptimizationIssue "HIGH_RESTART_COUNT" "HIGH" "" "";
     Build_OptimizationIssue "CPU_OVER_PROVISIONED" "MEDIUM" "" ""]
  = F64.of_Z 70.
Proof.
  rewrite calculateOptimizationScore_formula; [reflexivity|].
  unfold len. cbn [length]. lia.
Defined.

(** ** analyzeHealthStatus *)

Lemma wrap32_range (n : Z) : - 2 ^ 31 <= wrap32 n < 2 ^ 31.
Proof. unfold wrap32. pose proof (Z.mod_pos_bound (n + 2 ^ 31) (2 ^ 32)). lia. Qed.

Lemma wrap32_id (n : Z) : - 2 ^ 31 <= n < 2 ^ 31 -> wrap32 n = n.
Proof. intros Hn. unfold wrap32. rewrite Z.mod_small by lia. lia. Qed.

Lemma healthStep_range (containers : list Gke.Container) : forall acc,
  - 2 ^ 31 <= fst acc < 2 ^ 31 ->
  - 2 ^ 31 <= fst (fold_left healthStep containers acc) < 2 ^ 31.
Proof.
  induction containers as [|c rest IH]; intros [total issues] Hacc; [exact Hacc|].
  cbn [fold_left]. apply IH. unfold healthStep. cbn [fst].
  apply wrap32_range.
Qed.

Lemma RestartCount_range (s : Service) (pod : Gke.Pod) :
  - 2 ^ 31 <= RestartCount (analyzeHealthStatus s pod) < 2 ^ 31.
Proof.
  unfold analyzeHealthStatus.
  pose proof (healthStep_range (Gke.Pod_Containers pod) (0, []) ltac:(cbn; lia)) as H.
  destruct (fold_left healthStep (Gke.Pod_Containers pod) (0, [])) as [total issues].
  exact H.
Qed.

Lemma ltb_of_Z_zero (x : Z) :
  Z.abs x < 2 ^ 53 -> F64.ltb (F64.of_Z x) F64.zero = (x <? 0).
Proof.
  intros Hx. destruct (Z.eq_dec x 0) as [->|Hx0]; [reflexivity|].
  destruct (Z_signed x Hx0) as (sg & p & ->). rewrite cond_Zopp_abs in Hx.
  rewrite of_Z_signed by lia. destruct sg; reflexivity.
Qed.

(** As long as totalRestarts - healthThreshold does not leave the int32
    range, the health score is the one of the specification, computed
    exactly. *)
Lemma analyzeHealthStatus_score (s : Service) (pod : Gke.Pod) :
  - 2 ^ 31 <= HealthThreshold (criteria s) < 2 ^ 31 ->
  RestartCount (analyzeHealthStatus s pod) - HealthThreshold (criteria s) < 2 ^ 31 ->
  HealthScore (analyzeHealthStatus s pod)
  = F64.of_Z (healthScore_spec (RestartCount (analyzeHealthStatus s pod))
                (HealthThreshold (criteria s)) (Gke.Pod_Ready pod) (Gke.Pod_Status pod)).
Proof.
  intros Hthr. pose proof (RestartCount_range s pod) as Hrange. revert Hrange.
  unfold analyzeHealthStatus, healthScore_spec.
  destruct (fold_left healthStep (Gke.Pod_Containers pod) (0, [])) as [total issues].
  cbn [RestartCount HealthScore]. intros Hrange Hno.
  set (thr := HealthThreshold (criteria s)) in *.
  assert (H1 : (if thr <? total
                then F64.sub (F64.of_Z 100)
                       (F64.mul (F64.of_Z (int32_sub total thr)) (F64.of_Z 10))
                else F64.of_Z 100)
               = F64.of_Z (100 - (if thr <? total then (total - thr) * 10 else 0))).
  { destruct (Z.ltb_spec thr total) as [Hlt|Hge]; [|reflexivity].
    unfold int32_sub. rewrite wrap32_id by lia.
    rewrite mul_of_Z by lia. apply sub_of_Z; lia. }
  rewrite H1. set (a := 100 - (if thr <? total then (total - thr) * 10 else 0)).
  assert (Ha : - 2 ^ 36 < a <= 100).
  { unfold a. destruct (Z.ltb_spec thr total); lia. }
  assert (H2 : (if negb (Gke.Pod_Ready pod) then F64.sub (F64.of_Z a) (F64.of_Z 30)
                else F64.of_Z a)
               = F64.of_Z (a - (if Gke.Pod_Ready pod then 0 else 30))).
  { destruct (Gke.Pod_Ready pod); cbn [negb]; [f_equal; lia|apply sub_of_Z; lia]. }
  rewrite H2. set (b := a - (if Gke.Pod_Ready pod then 0 else 30)).
  assert (Hb : - 2 ^ 37 < b <= 100).
  { unfold b. destruct (Gke.Pod_Ready pod); lia. }
  assert (H3 : (if negb (String.eqb (Gke.Pod_Status pod) "Running")
                then F64.sub (F64.of_Z b) (F64.of_Z 40) else F64.of_Z b)
               = F64.of_Z (b - (if String.eqb (Gke.Pod_Status pod) "Running"
                                then 0 else 40))).
  { destruct (String.eqb (Gke.Pod_Status pod) "Running"); cbn [negb];
      [f_equal; lia|apply sub_of_Z; lia]. }
  rewrite H3.
  set (c := b - (if String.eqb (Gke.Pod_Status pod) "Running" then 0 else 40)).
  assert (Hc : - 2 ^ 38 < c <= 100).
  { unfold c. destruct (String.eqb (Gke.Pod_Status pod) "Running"); lia. }
  rewrite ltb_of_Z_zero by lia.
  destruct (Z.ltb_spec c 0) as [Hneg|Hpos].
  - rewrite Z.max_l by lia. reflexivity.
  - rewrite Z.max_r by lia. reflexivity.
Qed.

(** The scenario of C5: eight restarts with the threshold 5 give the
    health score 70 and the one issue HIGH_RESTART_COUNT, of severity
    HIGH. *)
Lemma analyzePod_eight_restarts :
  exists podOpt : PodOptimization,
    analyzePod (NewService noMetrics) 0 (samplePod "a" 8) = Ok podOpt
    /\ RestartCount (PodHealthStatus podOpt) = 8
    /\ HealthScore (PodHealthStatus podOpt) = F64.of_Z 70
    /\ Issues podOpt
       = [ {| Issue_Type := "HIGH_RESTART_COUNT";
              Severity := "HIGH";
              Issue_Description := "容器重啟次數過多 (8 次)";
              Issue_Suggestion := "檢查應用程式日誌，修復導致重啟的問題" |} ].
Proof. eexists. split; [reflexivity|]. vm_compute. repeat split. Qed.

(** C5, where the source departs from it.  With healthThreshold =
    -2147483648 and a ready, Running Pod that never restarted,
    totalRestarts exceeds the threshold by 2147483648, so the
    specification's score is 100 - 21474836480, clamped to 0; the int32
    subtraction of the source wraps to -2147483648 and the score it
    returns is 100 + 21474836480. *)
Theorem analyzeHealthStatus_threshold_overflow :
  HealthScore
    (analyzeHealthStatus (UpdateOptimizationCriteria (NewService noMetrics) lowestThreshold)
       (samplePod "a" 0))
  = F64.of_Z 21474836580
  /\ healthScore_spec 0 (- 2 ^ 31) true "Running" = 0
  /\ int32_sub 0 (- 2 ^ 31) = - 2 ^ 31.
Proof. vm_compute. repeat split. Qed.

(** ** The scores of a report *)

(** A property of the integers from 0 to [n - 1], checked one by one. *)
Lemma forall_below (P : Z -> bool) (n : nat) :
  forallb (fun k => P (Z.of_nat k)) (seq 0 n) = true ->
  forall z : Z, 0 <= z < Z.of_nat n -> P z = true.
Proof.
  intros Hall z Hz. rewrite forallb_forall in Hall.
  specialize (Hall (Z.to_nat z)). rewrite Z2Nat.id in Hall by lia.
  apply Hall, in_seq. lia.
Qed.

Lemma score_of_Z_range (h : Z) : 0 <= h <= 100 -> inScoreRange (F64.of_Z h).
Proof.
  intros Hh. unfold inScoreRange. apply andb_true_iff.
  apply (forall_below
           (fun z => F64.leb F64.zero (F64.of_Z z) && F64.leb (F64.of_Z z) (F64.of_Z 100))
           101); [vm_compute; reflexivity|lia].
Qed.

Lemma half_score_range (n : Z) :
  0 <= n <= 200 ->
  clampBelow0 (F64.div (F64.of_Z n) (F64.of_Z 2)) = F64.div (F64.of_Z n) (F64.of_Z 2)
  /\ inScoreRange (F64.div (F64.of_Z n) (F64.of_Z 2)).
Proof.
  intros Hn. unfold inScoreRange, clampBelow0.
  pose proof (forall_below
           (fun z => negb (F64.ltb (F64.div (F64.of_Z z) (F64.of_Z 2)) F64.zero)
                     && F64.leb F64.zero (F64.div (F64.of_Z z) (F64.of_Z 2))
                     && F64.leb (F64.div (F64.of_Z z) (F64.of_Z 2)) (F64.of_Z 100))
           201 ltac:(vm_compute; reflexivity) n ltac:(lia)) as H.
  cbv beta in H. apply andb_true_iff in H as [H H3]. apply andb_true_iff in H as [H1 H2].
  apply negb_true_iff in H1. rewrite H1. auto.
Qed.

Lemma healthScore_spec_range (total thr : Z) (ready : bool) (status : string) :
  0 <= healthScore_spec total thr ready status <= 100.
Proof.
  unfold healthScore_spec. destruct (Z.ltb_spec thr total); destruct ready;
    destruct (String.eqb status "Running"); lia.
Qed.

(** identifyOptimizationIssues returns at most four issues, which take
    at most 80 off the score. *)
Lemma identifyOptimizationIssues_penalty
    (s : Service) (resourceAnalysis : ResourceAnalysis) (healthStatus : HealthStatus)
    (pod : Gke.Pod) :
  len (identifyOptimizationIssues s resourceAnalysis healthStatus pod) <= 4
  /\ 0 <= 20 * countSeverity "HIGH"
                 (identifyOptimizationIssues s resourceAnalysis healthStatus pod)
          + 10 * countSeverity "MEDIUM"
                   (identifyOptimizationIssues s resourceAnalysis healthStatus pod)
          + 5 * countSeverity "LOW"
                  (identifyOptimizationIssues s resourceAnalysis healthStatus pod)
       <= 80.
Proof.
  unfold identifyOptimizationIssues, countSeverity, len.
  case_ifs;
    cbn; lia.
Qed.

(** As long as totalRestarts - healthThreshold does not leave the int32
    range, the health score and the optimization score of a Pod lie
    between 0 and 100. *)
Lemma analyzePod_scores_in_range (s : Service) (now : Time) (pod : Gke.Pod) :
  - 2 ^ 31 <= HealthThreshold (criteria s) < 2 ^ 31 ->
  RestartCount (analyzeHealthStatus s pod) - HealthThreshold (criteria s) < 2 ^ 31 ->
  exists podOpt : PodOptimization,
    analyzePod s now pod = Ok podOpt
    /\ inScoreRange (HealthScore (PodHealthStatus podOpt))
    /\ inScoreRange (OptimizationScore podOpt).
Proof.
  intros Hthr Hno. unfold analyzePod. eexists. split; [reflexivity|].
  cbn [PodHealthStatus OptimizationScore HealthScore].
  pose proof (analyzeHealthStatus_score s pod Hthr Hno) as Hscore.
  pose proof (healthScore_spec_range (RestartCount (analyzeHealthStatus s pod))
                (HealthThreshold (criteria s)) (Gke.Pod_Ready pod) (Gke.Pod_Status pod))
    as Hh.
  split; [rewrite Hscore; apply score_of_Z_range, Hh|].
  unfold calculateOptimizationScore.
  match goal with
  | |- context [fold_left penalize ?l _] =>
      pose proof (identifyOptimizationIssues_penalty s
                    (analyzeResourceUsage s
                       match Gke.GetPodResourceUsage (gkeService s) (Gke.Pod_Name pod)
                               (Gke.Pod_Namespace pod) with
                       | Ok usage => usage
                       | Err _ =>
                           {| Gke.RU_PodName := Gke.Pod_Name pod;
                              Gke.RU_Namespace := Gke.Pod_Namespace pod;
                              Gke.RU_CPU := Gke.Usage_zero;
                              Gke.RU_Memory := Gke.Usage_zero;
                              Gke.RU_Disk := Gke.DiskUsage_zero;
                              Gke.RU_Timestamp := now;
                              Gke.RU_Containers := [] |}
                       end)
                    (analyzeHealthStatus s pod) pod) as [Hlen Hpen];
      set (issues := l) in *
  end.
  rewrite fold_penalize_of_Z by lia. rewrite Hscore, add_of_Z by lia.
  match goal with
  | |- inScoreRange (if F64.ltb ?x F64.zero then F64.zero else ?x) =>
      change (inScoreRange (clampBelow0 x))
  end.
  match goal with
  | |- inScoreRange (clampBelow0 (F64.div (F64.of_Z ?n) _)) =>
      destruct (half_score_range n ltac:(lia)) as [Hclamp Hrange]
  end.
  rewrite Hclamp. exact Hrange.
Qed.


(** C8, where the source departs from it.  With the same criteria the
    report on a namespace of one healthy Pod carries a health score, an
    optimization score and an overall score far above 100. *)
Theorem report_scores_threshold_overflow :
  match GenerateOptimizationReport
          (UpdateOptimizationCriteria (NewService onePod) lowestThreshold) 0 "default" with
  | Ok report =>
      map (fun p => (HealthScore (PodHealthStatus p), OptimizationScore p))
        (PodAnalysis report)
      = [(F64.of_Z 21474836580, F64.of_Z 10737418330)]
      /\ OverallScore (Summary report) = F64.of_Z 10737418330
      /\ F64.leb (F64.of_Z 21474836580) (F64.of_Z 100) = false
      /\ F64.leb (F64.of_Z 10737418330) (F64.of_Z 100) = false
  | Err _ => False
  end.
Proof. vm_compute. repeat split. Qed.
